(** * cf-speedup: a streaming-aware forward proxy worker (src/worker.js)

    A shallow embedding of the request/response pipeline of the worker:
    target extraction from the request path, streaming classification,
    the outbound header policy, redirect rewriting, response shaping and
    CORS decoration, followed by the properties stated about them.

    Conventions.
    - A JavaScript string is the list of its UTF-16 code units, each a [Z].
    - A call that may throw (or an async function whose promise may
      reject) returns a [Completion]: [Ret v] or [Throw e].
    - A [Headers] object is a finite map from lower-cased names to values.
    - The platform services the worker calls but does not define (the URL
      parser, the remaining checks of the [Request] constructor and the
      network behind [fetch]) are the fields of a [Runtime]. *)

From Stdlib Require Import ZArith List String Ascii Lia Bool.
From stdpp Require Import base option list gmap.

Local Open Scope Z_scope.

(* ================================================================== *)
(** * Part I. Definitions                                             *)
(* ================================================================== *)

(** ** JavaScript strings *)

Module JsString.

(** The code units of an ASCII literal. *)
Definition js (s : string) : list Z :=
  List.map (fun a => Z.of_N (N_of_ascii a)) (list_ascii_of_string s).

Definition isUpperAlpha (c : Z) : bool := (65 <=? c) && (c <=? 90).
Definition isLowerAlpha (c : Z) : bool := (97 <=? c) && (c <=? 122).
Definition isDigit (c : Z) : bool := (48 <=? c) && (c <=? 57).

(** [String.prototype.toLowerCase] on one code unit. Header names are
    ASCII tokens, and on ASCII the method changes [A-Z] only. *)
Definition lowerUnit (c : Z) : Z := if isUpperAlpha c then c + 32 else c.

Definition toLowerCase (s : list Z) : list Z := List.map lowerUnit s.

(** [s.startsWith(p)]. *)
Fixpoint startsWith (s p : list Z) : bool :=
  match p, s with
  | [], _ => true
  | a :: p', b :: s' => (a =? b) && startsWith s' p'
  | _ :: _, [] => false
  end.

(** [s.includes(p)]. *)
Fixpoint includes (s p : list Z) : bool :=
  startsWith s p ||
  match s with
  | [] => false
  | _ :: s' => includes s' p
  end.

(** [s.slice(1)]. *)
Definition slice1 (s : list Z) : list Z := List.tl s.

(** Truthiness of a string: the empty string is falsy. *)
Definition truthy (s : list Z) : bool :=
  match s with [] => false | _ :: _ => true end.

End JsString.
Import JsString.

(** ** Completions *)

Inductive ErrorName := TypeError | RangeError | URIError | NetworkError.

(** A thrown [Error] object: its constructor and its [message]. *)
Record JsError := mkError { err_name : ErrorName; err_message : list Z }.

Inductive Completion (A : Type) : Type :=
| Ret (a : A)
| Throw (e : JsError).
Arguments Ret {A} a.
Arguments Throw {A} e.

Definition bind {A B} (c : Completion A) (k : A -> Completion B) : Completion B :=
  match c with
  | Ret a => k a
  | Throw e => Throw e
  end.

Notation "'let!' x ':=' c 'in' k" := (bind c (fun x => k))
  (at level 10, x name, c at level 100, k at level 200).

(** [try { body } catch (error) { handler }] around a computation. *)
Definition try_catch {A} (body : Completion A) (handler : JsError -> Completion A)
  : Completion A :=
  match body with
  | Ret a => Ret a
  | Throw e => handler e
  end.

(** ** [encodeURIComponent] and [decodeURIComponent]

    The two built-ins, after the abstract operations Encode and Decode of
    ECMA-262 (sec-encode, sec-decode). *)

Module URI.

Definition isLeadingSurrogate (c : Z) : bool := (0xD800 <=? c) && (c <=? 0xDBFF).
Definition isTrailingSurrogate (c : Z) : bool := (0xDC00 <=? c) && (c <=? 0xDFFF).

(** UTF16SurrogatePairToCodePoint. *)
Definition pairToCodePoint (lead trail : Z) : Z :=
  (lead - 0xD800) * 0x400 + (trail - 0xDC00) + 0x10000.

(** UTF16EncodeCodePoint. *)
Definition utf16Encode (cp : Z) : list Z :=
  if cp <=? 0xFFFF then [cp]
  else [0xD800 + (cp - 0x10000) / 0x400; 0xDC00 + (cp - 0x10000) mod 0x400].

(** The UTF-8 transformation of a code point. *)
Definition utf8Encode (cp : Z) : list Z :=
  if cp <? 0x80 then [cp]
  else if cp <? 0x800 then [0xC0 + cp / 0x40; 0x80 + cp mod 0x40]
  else if cp <? 0x10000 then
    [0xE0 + cp / 0x1000; 0x80 + (cp / 0x40) mod 0x40; 0x80 + cp mod 0x40]
  else
    [0xF0 + cp / 0x40000; 0x80 + (cp / 0x1000) mod 0x40;
     0x80 + (cp / 0x40) mod 0x40; 0x80 + cp mod 0x40].

(** An upper-case hexadecimal digit, as a code unit. *)
Definition hexDigit (n : Z) : Z := if n <? 10 then 48 + n else 55 + n.

(** The value of a hexadecimal digit of either case. *)
Definition hexValue (c : Z) : option Z :=
  if isDigit c then Some (c - 48)
  else if (65 <=? c) && (c <=? 70) then Some (c - 55)
  else if (97 <=? c) && (c <=? 102) then Some (c - 87)
  else None.

(** ["%XY"] for each octet. *)
Definition pctEscape (octets : list Z) : list Z :=
  List.flat_map (fun b => [37; hexDigit (b / 16); hexDigit (b mod 16)]) octets.

(** uriUnreserved: letters, digits and [-_.!~*'()]. *)
Definition uriUnreserved (c : Z) : bool :=
  isUpperAlpha c || isLowerAlpha c || isDigit c ||
  existsb (Z.eqb c) (js "-_.!~*'()").

Definition malformed : JsError := mkError URIError (js "URI malformed").

(** Encode(string, extraUnescaped): code units of [unescaped] are kept,
    every other code point is written as the escapes of its UTF-8
    octets; an unpaired surrogate throws a URIError. *)
Fixpoint Encode (unescaped : Z -> bool) (s : list Z) : Completion (list Z) :=
  match s with
  | [] => Ret []
  | C :: rest =>
    if unescaped C then
      let! R := Encode unescaped rest in Ret (C :: R)
    else if isTrailingSurrogate C then Throw malformed
    else if isLeadingSurrogate C then
      match rest with
      | second :: rest' =>
        if isTrailingSurrogate second then
          let! R := Encode unescaped rest' in
          Ret (pctEscape (utf8Encode (pairToCodePoint C second)) ++ R)
        else Throw malformed
      | [] => Throw malformed
      end
    else
      let! R := Encode unescaped rest in Ret (pctEscape (utf8Encode C) ++ R)
  end.

Definition encodeURIComponent (s : list Z) : Completion (list Z) :=
  Encode uriUnreserved s.

(** Decode, first half: the escapes are read off. A ["%"] that is not
    followed by two hexadecimal digits throws a URIError. *)
Inductive item := Lit (c : Z) | Oct (b : Z).

Fixpoint pctOctets (s : list Z) : Completion (list item) :=
  match s with
  | [] => Ret []
  | C :: rest =>
    if C =? 37 then
      match rest with
      | h :: l :: rest' =>
        match hexValue h, hexValue l with
        | Some a, Some b => let! R := pctOctets rest' in Ret (Oct (16 * a + b) :: R)
        | _, _ => Throw malformed
        end
      | _ => Throw malformed
      end
    else let! R := pctOctets rest in Ret (Lit C :: R)
  end.

Definition isContinuation (b : Z) : bool := (0x80 <=? b) && (b <? 0xC0).

(** The code point of a well-formed UTF-8 sequence of two, three or four
    octets: continuation octets, no overlong form, no surrogate, at most
    U+10FFFF. *)
Definition decode2 (b0 b1 : Z) : option Z :=
  let cp := (b0 - 0xC0) * 0x40 + (b1 - 0x80) in
  if isContinuation b1 && (0x80 <=? cp) then Some cp else None.

Definition decode3 (b0 b1 b2 : Z) : option Z :=
  let cp := (b0 - 0xE0) * 0x1000 + (b1 - 0x80) * 0x40 + (b2 - 0x80) in
  if isContinuation b1 && isContinuation b2 && (0x800 <=? cp)
     && negb ((0xD800 <=? cp) && (cp <=? 0xDFFF))
  then Some cp else None.

Definition decode4 (b0 b1 b2 b3 : Z) : option Z :=
  let cp := (b0 - 0xF0) * 0x40000 + (b1 - 0x80) * 0x1000
            + (b2 - 0x80) * 0x40 + (b3 - 0x80) in
  if isContinuation b1 && isContinuation b2 && isContinuation b3
     && (0x10000 <=? cp) && (cp <=? 0x10FFFF)
  then Some cp else None.

(** Decode, second half: an octet below 0x80 is its own character; a
    leading octet announces a sequence of n octets, all of them escapes,
    which must be the UTF-8 form of one code point. *)
Fixpoint utf8Decode (l : list item) : Completion (list Z) :=
  match l with
  | [] => Ret []
  | Lit c :: t => let! R := utf8Decode t in Ret (c :: R)
  | Oct b :: t =>
    if b <? 0x80 then let! R := utf8Decode t in Ret (b :: R)
    else if b <? 0xC0 then Throw malformed
    else if b <? 0xE0 then
      match t with
      | Oct b1 :: t' =>
        match decode2 b b1 with
        | Some cp => let! R := utf8Decode t' in Ret (utf16Encode cp ++ R)
        | None => Throw malformed
        end
      | _ => Throw malformed
      end
    else if b <? 0xF0 then
      match t with
      | Oct b1 :: Oct b2 :: t' =>
        match decode3 b b1 b2 with
        | Some cp => let! R := utf8Decode t' in Ret (utf16Encode cp ++ R)
        | None => Throw malformed
        end
      | _ => Throw malformed
      end
    else if b <? 0xF8 then
      match t with
      | Oct b1 :: Oct b2 :: Oct b3 :: t' =>
        match decode4 b b1 b2 b3 with
        | Some cp => let! R := utf8Decode t' in Ret (utf16Encode cp ++ R)
        | None => Throw malformed
        end
      | _ => Throw malformed
      end
    else Throw malformed
  end.

Definition decodeURIComponent (s : list Z) : Completion (list Z) :=
  let! items := pctOctets s in utf8Decode items.

(** [String.prototype.isWellFormed]: code units in range and every
    surrogate paired. *)
Fixpoint isWellFormed (s : list Z) : bool :=
  match s with
  | [] => true
  | c :: rest =>
    if isLeadingSurrogate c then
      match rest with
      | d :: rest' => isTrailingSurrogate d && isWellFormed rest'
      | [] => false
      end
    else (0 <=? c) && (c <=? 0xFFFF) && negb (isTrailingSurrogate c)
         && isWellFormed rest
  end.

End URI.
Import URI.

(** ** Regular expressions

    The patterns of [STREAMING_URL_PATTERNS] use literal characters, one
    optional character class and the end anchor; all carry the flag [i]. *)

Module RegExp.

Inductive atom :=
| Chr (c : Z)               (* a literal character *)
| OptClass (cs : list Z)    (* [cs]? *)
| EndOfInput.               (* $ *)

(** Canonicalize under the flag [i] without the flag [u]: a code unit is
    compared through its upper-case form, and a code unit outside ASCII
    never becomes an ASCII one, so against ASCII atoms only [a-z] move. *)
Definition canonicalize (c : Z) : Z := if isLowerAlpha c then c - 32 else c.

Definition sameChar (a b : Z) : bool := canonicalize a =? canonicalize b.

(** The atoms match a prefix of [s]. *)
Fixpoint matchHere (r : list atom) (s : list Z) : bool :=
  match r with
  | [] => true
  | Chr c :: r' =>
    match s with
    | x :: s' => sameChar x c && matchHere r' s'
    | [] => false
    end
  | OptClass cs :: r' =>
    match s with
    | x :: s' => existsb (sameChar x) cs && matchHere r' s'
    | [] => false
    end || matchHere r' s
  | EndOfInput :: r' =>
    match s with
    | [] => matchHere r' s
    | _ :: _ => false
    end
  end.

(** [pattern.test(s)]: the pattern matches at some position of [s]. *)
Fixpoint test (r : list atom) (s : list Z) : bool :=
  matchHere r s ||
  match s with
  | [] => false
  | _ :: s' => test r s'
  end.

Definition lit (s : string) : list atom := List.map Chr (js s).

End RegExp.

(** ** Headers, bodies, URLs, requests and responses *)

(** A [Headers] object, as [get], [set] and [has] observe it: a map from
    lower-cased names to the value [get] returns (the values sent under
    one name, joined). The order of the entries is not kept; no result of
    the worker depends on it. *)
Abbreviation Headers := (gmap (list Z) (list Z)).

Definition Headers_get (h : Headers) (name : list Z) : option (list Z) :=
  h !! toLowerCase name.

Definition Headers_has (h : Headers) (name : list Z) : bool :=
  match h !! toLowerCase name with Some _ => true | None => false end.

Definition Headers_set (h : Headers) (name value : list Z) : Headers :=
  <[toLowerCase name := value]> h.

(** [entries()], read by the loop of lines 124-129 alone: one pair per
    name, with the joined value. The platform yields such a pair for
    every name but [Set-Cookie], whose lines it yields one by one; after
    the [set] of line 127 the last line then stands under [set-cookie],
    where this list leaves the joined value. The two agree on a header
    set with at most one [Set-Cookie] line, and under every other name
    of any header set. *)
Definition Headers_entries (h : Headers) : list (list Z * list Z) :=
  map_to_list h.

(** [new Headers(object)]: one entry per property, in order. *)
Definition Headers_new (object : list (string * string)) : Headers :=
  foldl (fun h kv => Headers_set h (js kv.1) (js kv.2)) ∅ object.

(** A body: absent, a text given by the worker, or a stream handed over
    by the platform (named by a handle, never read by the worker). *)
Inductive Body :=
| NullBody
| TextBody (text : list Z)
| StreamBody (handle : nat).

Record URL := mkURL {
  href : list Z;
  host : list Z;
  hostname : list Z;
  pathname : list Z
}.

Inductive RedirectMode := Follow | Manual.

Record Request := mkRequest {
  req_url : list Z;
  req_method : list Z;
  req_headers : Headers;
  req_body : Body;
  req_redirect : RedirectMode
}.

(** The second argument of [new Request]. *)
Record RequestInit := mkRequestInit {
  ri_method : list Z;
  ri_headers : Headers;
  ri_body : Body;
  ri_redirect : RedirectMode
}.

Record Response := mkResponse {
  resp_status : Z;
  resp_statusText : list Z;
  resp_headers : Headers;
  resp_body : Body
}.

(** The second argument of [new Response]. *)
Record ResponseInit := mkResponseInit {
  init_status : Z;
  init_statusText : list Z;
  init_headers : Headers
}.

(** The platform: [new URL(input, base)], the checks [new Request] makes
    once the URL is parsed (method, body, credentials), and the outcome of
    [await fetch(request)], a response or a transport failure. *)
Record Runtime := mkRuntime {
  URL_parse : list Z -> option (list Z) -> Completion URL;
  Request_check : URL -> Request -> option JsError;
  fetch : Request -> Completion Response
}.

(** [new Request(input, init)]: the input must parse as an absolute URL
    (the worker has no base URL), then the platform checks the rest. *)
Definition Request_new (rt : Runtime) (input : list Z) (init : RequestInit)
  : Completion Request :=
  let! parsed := URL_parse rt input None in
  let request := mkRequest (href parsed) (ri_method init) (ri_headers init)
                           (ri_body init) (ri_redirect init) in
  match Request_check rt parsed request with
  | Some e => Throw e
  | None => Ret request
  end.

(** Statuses whose response has no body (Fetch, null body status). *)
Definition nullBodyStatus (status : Z) : bool :=
  existsb (Z.eqb status) [101; 103; 204; 205; 304].

(** The reason-phrase production: HTAB, SP, VCHAR and obs-text. *)
Definition reasonPhrase (s : list Z) : bool :=
  forallb (fun c => (c =? 9) || ((32 <=? c) && (c <=? 126))
                    || ((128 <=? c) && (c <=? 255))) s.

(** [new Response(body, init)] (Fetch, initialize a response). *)
Definition Response_new (body : Body) (init : ResponseInit) : Completion Response :=
  if negb ((200 <=? init_status init) && (init_status init <=? 599)) then
    Throw (mkError RangeError (js "The status provided is outside the range [200, 599]."))
  else if negb (reasonPhrase (init_statusText init)) then
    Throw (mkError TypeError (js "Invalid statusText"))
  else
    match body with
    | NullBody =>
      Ret (mkResponse (init_status init) (init_statusText init) (init_headers init) NullBody)
    | _ =>
      if nullBodyStatus (init_status init) then
        Throw (mkError TypeError (js "Response with null body status cannot have body"))
      else
        let headers :=
          match body with
          | TextBody _ =>
            if Headers_has (init_headers init) (js "Content-Type") then init_headers init
            else Headers_set (init_headers init) (js "Content-Type")
                             (js "text/plain;charset=UTF-8")
          | _ => init_headers init
          end in
        Ret (mkResponse (init_status init) (init_statusText init) headers body)
    end.

(** ** The worker (src/worker.js) *)

(** Default request headers (lines 8-13). *)
Definition DEFAULT_HEADERS : list (string * string) :=
  [ ("User-Agent",
     "Mozilla/5.0 (iPhone; CPU iPhone OS 17_5 like Mac OS X) AppleWebKit/605.1.15 (KHTML, like Gecko) Version/17.5 Mobile/15E148 Safari/604.1");
    ("Accept", "text/html,application/xhtml+xml,application/xml;q=0.9,*/*;q=0.8");
    ("Accept-Language", "zh-CN,zh;q=0.9,en;q=0.8");
    ("Accept-Encoding", "gzip, deflate, br") ]%string.

(** The patterns that mark a URL as streaming (lines 19-31). *)
Definition STREAMING_URL_PATTERNS : list (list RegExp.atom) :=
  [ RegExp.lit "rtmp" ++ [RegExp.OptClass (js "s")] ++ RegExp.lit "://";
    RegExp.lit ".flv" ++ [RegExp.EndOfInput];
    RegExp.lit ".m3u8" ++ [RegExp.EndOfInput];
    RegExp.lit ".ts" ++ [RegExp.EndOfInput];
    RegExp.lit ".mp4" ++ [RegExp.EndOfInput];
    RegExp.lit ".webm" ++ [RegExp.EndOfInput];
    RegExp.lit "hls";
    RegExp.lit "dash";
    RegExp.lit "stream";
    RegExp.lit "live";
    RegExp.lit "broadcast" ].

(** Request headers that are not forwarded (lines 36-40). *)
Definition EXCLUDED_HEADERS : list (list Z) :=
  [ js "cf-"; js "x-forwarded-"; js "host" ].

(** [isStreamingUrl] (lines 97-99). *)
Definition isStreamingUrl (url : list Z) : bool :=
  existsb (fun pattern => RegExp.test pattern url) STREAMING_URL_PATTERNS.

(** [isStreamingMethod] (lines 106-111). *)
Definition isStreamingMethod (request : Request) : bool :=
  let contentType := default [] (Headers_get (req_headers request) (js "content-type")) in
  includes contentType (js "video/") ||
  includes contentType (js "application/x-rtmp") ||
  includes contentType (js "application/vnd.apple.mpegurl").

(** The test of line 126 on one header name. *)
Definition excluded (key : list Z) : bool :=
  let lowerKey := toLowerCase key in
  existsb (fun prefix => startsWith lowerKey prefix) EXCLUDED_HEADERS.

(** The body of the loop of lines 124-129, on one entry. *)
Definition forwardHeader (proxyHeaders : Headers) (entry : list Z * list Z) : Headers :=
  if negb (excluded entry.1) then Headers_set proxyHeaders entry.1 entry.2
  else proxyHeaders.

(** [buildProxyHeaders] (lines 119-139). *)
Definition buildProxyHeaders (request : Request) (isStreaming : bool) : Headers :=
  let proxyHeaders := Headers_new DEFAULT_HEADERS in
  let proxyHeaders :=
    foldl forwardHeader proxyHeaders (Headers_entries (req_headers request)) in
  if isStreaming then
    let proxyHeaders :=
      Headers_set proxyHeaders (js "Cache-Control") (js "no-cache, no-store, must-revalidate") in
    let proxyHeaders := Headers_set proxyHeaders (js "Pragma") (js "no-cache") in
    Headers_set proxyHeaders (js "Connection") (js "keep-alive")
  else proxyHeaders.

(** [response.headers.set(name, value)] on a response. *)
Definition setHeader (response : Response) (name value : string) : Response :=
  mkResponse (resp_status response) (resp_statusText response)
             (Headers_set (resp_headers response) (js name) (js value))
             (resp_body response).

(** [addCorsHeaders] (lines 220-233). *)
Definition addCorsHeaders (response : Response) (isStreaming : bool) : Response :=
  let response := setHeader response "Access-Control-Allow-Origin" "*" in
  let response :=
    setHeader response "Access-Control-Allow-Methods" "GET, POST, PUT, DELETE, OPTIONS, HEAD" in
  let response := setHeader response "Access-Control-Allow-Headers" "*" in
  let response := setHeader response "Access-Control-Expose-Headers" "*" in
  if isStreaming then
    let response := setHeader response "Access-Control-Allow-Credentials" "true" in
    setHeader response "Access-Control-Max-Age" "86400"
  else response.

(** The headers of a streaming response (lines 188-203). *)
Definition streamingHeaders (response : Response) : Headers :=
  let responseHeaders := resp_headers response in
  let responseHeaders :=
    Headers_set responseHeaders (js "Cache-Control") (js "no-cache, no-store, must-revalidate") in
  let responseHeaders := Headers_set responseHeaders (js "Pragma") (js "no-cache") in
  let responseHeaders := Headers_set responseHeaders (js "Expires") (js "0") in
  let responseHeaders := Headers_set responseHeaders (js "Connection") (js "keep-alive") in
  if Headers_has (resp_headers response) (js "accept-ranges") then
    Headers_set responseHeaders (js "Accept-Ranges")
      (default (js "null") (Headers_get (resp_headers response) (js "accept-ranges")))
  else Headers_set responseHeaders (js "Accept-Ranges") (js "bytes").

(** [handleStreamingResponse] (lines 187-212). *)
Definition handleStreamingResponse (response : Response) : Completion Response :=
  let responseHeaders := streamingHeaders response in
  let! streamResponse :=
    Response_new (resp_body response)
      (mkResponseInit (resp_status response) (resp_statusText response) responseHeaders) in
  Ret (addCorsHeaders streamResponse true).

(** The rewritten [Location] of line 155. *)
Definition proxiedLocation (originalUrl : URL) (redirectUrl : URL) : Completion (list Z) :=
  let! encoded := encodeURIComponent (href redirectUrl) in
  Ret (js "https://" ++ host originalUrl ++ js "/" ++ encoded).

(** A response as [fetch] resolves with it: a status in 200..599, a
    reason phrase, and a body that is absent or a stream, absent when the
    status allows none. *)
Definition fromNetwork (response : Response) : bool :=
  (200 <=? resp_status response) && (resp_status response <=? 599)
  && reasonPhrase (resp_statusText response)
  && match resp_body response with
     | NullBody => true
     | StreamBody _ => negb (nullBodyStatus (resp_status response))
     | TextBody _ => false
     end.

(** The condition of lines 151-153 under which the redirect branch is
    taken: a redirect status and a non-empty [Location]. *)
Definition isRedirect (response : Response) : bool :=
  existsb (Z.eqb (resp_status response)) [301; 302; 303; 307; 308]
  && match Headers_get (resp_headers response) (js "location") with
     | Some location => truthy location
     | None => false
     end.

Section Worker.

Variable rt : Runtime.

(** The text of the template literal of [getConfigPage] (lines 241-528)
    before and after its one [${hostname}]. *)
Variables html_head html_tail : list Z.

(** The redirect branch of [handleResponse] (lines 154-163). *)
Definition rewriteRedirect (response : Response) (originalUrl : URL)
    (targetUrl location : list Z) (isStreaming : bool) : Completion Response :=
  let! redirectUrl := URL_parse rt location (Some targetUrl) in
  let! modifiedLocation := proxiedLocation originalUrl redirectUrl in
  let! redirectResponse :=
    Response_new (resp_body response)
      (mkResponseInit (resp_status response) (resp_statusText response)
                      (resp_headers response)) in
  let redirectResponse :=
    mkResponse (resp_status redirectResponse) (resp_statusText redirectResponse)
               (Headers_set (resp_headers redirectResponse) (js "Location") modifiedLocation)
               (resp_body redirectResponse) in
  Ret (addCorsHeaders redirectResponse isStreaming).

(** The rest of [handleResponse] (lines 167-179). *)
Definition shapeResponse (response : Response) (isStreaming : bool)
  : Completion Response :=
  if isStreaming then handleStreamingResponse response
  else
    let! modifiedResponse :=
      Response_new (resp_body response)
        (mkResponseInit (resp_status response) (resp_statusText response)
                        (resp_headers response)) in
    Ret (addCorsHeaders modifiedResponse isStreaming).

(** [handleResponse] (lines 149-180). *)
Definition handleResponse (response : Response) (originalUrl : URL)
    (targetUrl : list Z) (isStreaming : bool) : Completion Response :=
  if existsb (Z.eqb (resp_status response)) [301; 302; 303; 307; 308] then
    match Headers_get (resp_headers response) (js "location") with
    | Some location =>
      if truthy location then
        rewriteRedirect response originalUrl targetUrl location isStreaming
      else shapeResponse response isStreaming
    | None => shapeResponse response isStreaming
    end
  else shapeResponse response isStreaming.

(** [getConfigPage] (lines 240-535). *)
Definition getConfigPage (hostname : list Z) : Completion Response :=
  let html := html_head ++ hostname ++ html_tail in
  Response_new (TextBody html)
    (mkResponseInit 200 []
       (Headers_new [("Content-Type", "text/html; charset=utf-8")%string])).

(** The text before [${error.message}] in the body of line 83. *)
Definition errorPrefix : list Z := [0x4EE3; 0x7406; 0x9519; 0x8BEF; 58; 32].

(** The response of the [catch] clause (lines 83-88). *)
Definition errorResponse (error : JsError) : Completion Response :=
  Response_new (TextBody (errorPrefix ++ err_message error))
    (mkResponseInit 502 []
       (Headers_new [("Content-Type", "text/plain; charset=utf-8")%string])).

(** The target named by a request path (lines 52-53). *)
Definition extractTarget (pathname : list Z) : Completion (list Z) :=
  decodeURIComponent (slice1 pathname).

(** The verdict of line 61. *)
Definition isStreamingRequest (request : Request) (targetUrl : list Z) : bool :=
  isStreamingUrl targetUrl || isStreamingMethod request.

(** The statements of the [try] block up to the awaited fetch
    (lines 65-76). *)
Definition forward (request : Request) (targetUrl : list Z) : Completion Response :=
  let proxyHeaders := buildProxyHeaders request (isStreamingRequest request targetUrl) in
  let! proxyRequest :=
    Request_new rt targetUrl
      (mkRequestInit (req_method request) proxyHeaders (req_body request) Manual) in
  fetch rt proxyRequest.

(** [handleRequest] (lines 48-90). The URL is parsed and the path decoded
    before the [try]; [return handleResponse(...)] hands the promise of
    the async [handleResponse] back without awaiting it, so only what is
    thrown while the headers and the request are built and the fetch is
    awaited reaches the [catch] clause. *)
Definition handleRequest (request : Request) : Completion Response :=
  let! url := URL_parse rt (req_url request) None in
  let! targetUrl := extractTarget (pathname url) in
  if negb (truthy targetUrl) then getConfigPage (hostname url)
  else
    match forward request targetUrl with
    | Ret response =>
      handleResponse response url targetUrl (isStreamingRequest request targetUrl)
    | Throw error => errorResponse error
    end.

End Worker.

(** ** A runtime for examples

    A small platform on which the worker can be run: its URL parser
    accepts [scheme://name] followed by an optional path (and, against
    such a base, a reference that starts with one slash), and its network
    answers a fixed set of targets. *)

Module Demo.

Fixpoint span (p : Z -> bool) (s : list Z) : list Z * list Z :=
  match s with
  | [] => ([], [])
  | c :: s' =>
    if p c then let r := span p s' in (c :: r.1, r.2) else ([], s)
  end.

Definition isSchemeChar (c : Z) : bool :=
  isUpperAlpha c || isLowerAlpha c || isDigit c || existsb (Z.eqb c) (js "+-.").

Definition isNameChar (c : Z) : bool :=
  isUpperAlpha c || isLowerAlpha c || isDigit c || existsb (Z.eqb c) (js "-.").

Definition invalidURL : JsError := mkError TypeError (js "Invalid URL").

(** [scheme://name/path?query]: the parts of an absolute URL. *)
Definition parts (input : list Z) : option (list Z * list Z * list Z) :=
  let r := span isSchemeChar input in
  match r.1, r.2 with
  | c :: _, 58 :: 47 :: 47 :: rest =>
    if isUpperAlpha c || isLowerAlpha c then
      let a := span isNameChar rest in
      match a.1, a.2 with
      | _ :: _, [] => Some (toLowerCase r.1, toLowerCase a.1, js "/")
      | _ :: _, 47 :: _ => Some (toLowerCase r.1, toLowerCase a.1, a.2)
      | _, _ => None
      end
    else None
  | _, _ => None
  end.

Definition build (scheme name path : list Z) : URL :=
  mkURL (scheme ++ js "://" ++ name ++ path) name name
        (span (fun c => negb ((c =? 63) || (c =? 35))) path).1.

Definition URL_parse (input : list Z) (base : option (list Z)) : Completion URL :=
  match parts input with
  | Some (scheme, name, path) => Ret (build scheme name path)
  | None =>
    match base, input with
    | Some b, 47 :: 47 :: _ => Throw invalidURL
    | Some b, 47 :: _ =>
      match parts b with
      | Some (scheme, name, _) => Ret (build scheme name input)
      | None => Throw invalidURL
      end
    | _, _ => Throw invalidURL
    end
  end.

(** The answers of the origins of the examples: a page, a redirect, a
    redirect status without [Location], a playlist and a redirect to it. *)
Definition page : Response :=
  mkResponse 200 (js "OK") {[ js "content-type" := js "text/html" ]} (StreamBody 1).
Definition found : Response :=
  mkResponse 302 (js "Found") {[ js "location" := js "/next" ]} NullBody.
Definition moved : Response :=
  mkResponse 301 (js "Moved Permanently") {[ js "etag" := js "v1" ]} (StreamBody 2).
Definition playlist : Response :=
  mkResponse 200 (js "OK") {[ js "content-type" := js "application/vnd.apple.mpegurl" ]}
             (StreamBody 3).
Definition playlist_moved : Response :=
  mkResponse 302 (js "Found") {[ js "location" := js "/a.m3u8" ]} NullBody.

(** The failure of a fetch that reaches no origin. *)
Definition unreachable : JsError := mkError NetworkError (js "internal error").

(** The network: every target but the five above is unreachable. *)
Definition fetch (request : Request) : Completion Response :=
  let url := req_url request in
  if bool_decide (url = js "https://origin.test/page") then Ret page
  else if bool_decide (url = js "https://origin.test/a") then Ret found
  else if bool_decide (url = js "https://origin.test/moved") then Ret moved
  else if bool_decide (url = js "https://x.test/a.m3u8") then Ret playlist
  else if bool_decide (url = js "https://x.test/old.m3u8") then Ret playlist_moved
  else Throw unreachable.

Definition rt : Runtime := mkRuntime URL_parse (fun _ _ => None) fetch.

(** A request for [path] on the service host [proxy.test]. *)
Definition request (method path : string) (headers : Headers) : Request :=
  mkRequest (js "https://proxy.test" ++ js path) (js method) headers NullBody Manual.

(** The parsed URL of that request. *)
Definition url (path : string) : URL :=
  build (js "https") (js "proxy.test") (js path).

(** The worker on this runtime, with an empty page template. *)
Definition run (r : Request) : Completion Response := handleRequest rt [] [] r.

End Demo.

(** ** Vocabulary of the statements *)

(** Every name of a [Headers] object is in lower case, as the platform
    keeps them. *)
Definition lowercaseNames (h : Headers) : bool :=
  forallb (fun kv => bool_decide (toLowerCase kv.1 = kv.1)) (map_to_list h).

(** The exclusion in the words of the specification: the lower-case name
    starts with [cf-], starts with [x-forwarded-], or equals [host]. *)
Definition namedForExclusion (key : list Z) : bool :=
  startsWith key (js "cf-") || startsWith key (js "x-forwarded-")
  || bool_decide (key = js "host").

(** The value lines 133-135 force on a streaming request, by lower-case
    name. *)
Definition forcedRequestHeader (key : list Z) : option (list Z) :=
  if bool_decide (key = js "cache-control") then
    Some (js "no-cache, no-store, must-revalidate")
  else if bool_decide (key = js "pragma") then Some (js "no-cache")
  else if bool_decide (key = js "connection") then Some (js "keep-alive")
  else None.

(** The names [addCorsHeaders] writes. *)
Definition corsNames (isStreaming : bool) : list (list Z) :=
  [ js "access-control-allow-origin"; js "access-control-allow-methods";
    js "access-control-allow-headers"; js "access-control-expose-headers" ]
  ++ if isStreaming then
       [ js "access-control-allow-credentials"; js "access-control-max-age" ]
     else [].

(** The names [handleStreamingResponse] writes. *)
Definition streamingNames : list (list Z) :=
  [ js "cache-control"; js "pragma"; js "expires"; js "connection";
    js "accept-ranges" ].

(** The names the non-redirect path writes on a response. *)
Definition shapedNames (isStreaming : bool) : list (list Z) :=
  (if isStreaming then streamingNames else []) ++ corsNames isStreaming.

(** ASCII case folding of a string, under which the patterns of the
    worker compare. *)
Definition foldCase (s : list Z) : list Z := List.map lowerUnit s.

(** The texts whose presence anywhere in a URL the patterns of lines
    20 and 26-30 look for, and the endings those of lines 21-25 look for. *)
Definition streamingNeedles : list (list Z) :=
  [ js "rtmp://"; js "rtmps://"; js "hls"; js "dash"; js "stream"; js "live";
    js "broadcast" ].

Definition streamingExtensions : list (list Z) :=
  [ js ".flv"; js ".m3u8"; js ".ts"; js ".mp4"; js ".webm" ].

(** The value [addCorsHeaders] writes under a lower-case name, if any. *)
Definition corsValue (isStreaming : bool) (key : list Z) : option (list Z) :=
  if bool_decide (key = js "access-control-allow-origin") then Some (js "*")
  else if bool_decide (key = js "access-control-allow-methods") then
    Some (js "GET, POST, PUT, DELETE, OPTIONS, HEAD")
  else if bool_decide (key = js "access-control-allow-headers") then Some (js "*")
  else if bool_decide (key = js "access-control-expose-headers") then Some (js "*")
  else if isStreaming && bool_decide (key = js "access-control-allow-credentials") then
    Some (js "true")
  else if isStreaming && bool_decide (key = js "access-control-max-age") then
    Some (js "86400")
  else None.

(** ** The script of the configuration page (lines 464-526)

    The page served by [getConfigPage] carries a script; its two
    functions that compute are [normalizeUrl] and the part of
    [createProxy] that builds the proxied address. *)

Module Page.

(** The code units [String.prototype.trim] removes: WhiteSpace and
    LineTerminator of ECMA-262. *)
Definition isWhiteSpace (c : Z) : bool :=
  existsb (Z.eqb c)
    [ 0x9; 0xA; 0xB; 0xC; 0xD; 0x20; 0xA0; 0x1680; 0x2028; 0x2029; 0x202F; 0x205F;
      0x3000; 0xFEFF ]
  || ((0x2000 <=? c) && (c <=? 0x200A)).

Fixpoint trimStart (s : list Z) : list Z :=
  match s with
  | [] => []
  | c :: s' => if isWhiteSpace c then trimStart s' else s
  end.

Definition trimEnd (s : list Z) : list Z := rev (trimStart (rev s)).

(** [s.trim()]. *)
Definition trim (s : list Z) : list Z := trimEnd (trimStart s).

(** The patterns of line 484; the anchor [^] is rendered by matching at
    the first position only, the optional [s] by a class of one. *)
Definition httpScheme : list RegExp.atom :=
  RegExp.lit "http" ++ [RegExp.OptClass (js "s")] ++ RegExp.lit "://".

Definition rtmpScheme : list RegExp.atom :=
  RegExp.lit "rtmp" ++ [RegExp.OptClass (js "s")] ++ RegExp.lit "://".

(** [normalizeUrl] (lines 483-488). *)
Definition normalizeUrl (url : list Z) : list Z :=
  if negb (RegExp.matchHere httpScheme url) && negb (RegExp.matchHere rtmpScheme url)
  then js "https://" ++ url
  else url.

(** [createProxy] (lines 465-481), from the text of the input field to
    the proxied address it shows: nothing for a blank input, and
    otherwise what line 476 builds, for the host name the page was served
    with. *)
Definition createProxy (hostname value : list Z) : option (Completion (list Z)) :=
  let inputUrl := trim value in
  if negb (truthy inputUrl) then None
  else
    let normalizedUrl := normalizeUrl inputUrl in
    Some (let! encoded := encodeURIComponent normalizedUrl in
          Ret (js "https://" ++ hostname ++ js "/" ++ encoded)).

End Page.

(** The texts [isStreamingMethod] looks for in the content type
    (lines 108-110). *)
Definition streamingContentTypes : list (list Z) :=
  [ js "video/"; js "application/x-rtmp"; js "application/vnd.apple.mpegurl" ].

(** The value [handleStreamingResponse] writes under a lower-case name,
    if any (lines 191-203). *)
Definition streamingValue (response : Response) (key : list Z) : option (list Z) :=
  if bool_decide (key = js "cache-control") then
    Some (js "no-cache, no-store, must-revalidate")
  else if bool_decide (key = js "pragma") then Some (js "no-cache")
  else if bool_decide (key = js "expires") then Some (js "0")
  else if bool_decide (key = js "connection") then Some (js "keep-alive")
  else if bool_decide (key = js "accept-ranges") then
    Some (default (js "bytes") (Headers_get (resp_headers response) (js "accept-ranges")))
  else None.

(** The schemes the patterns of line 484 accept at the start of a URL. *)
Definition pageSchemes : list (list Z) :=
  [ js "http://"; js "https://"; js "rtmp://"; js "rtmps://" ].

(** A text that starts, in any case, with one of these schemes. *)
Definition hasPageScheme (url : list Z) : Prop :=
  exists scheme rest, In scheme pageSchemes /\ foldCase url = scheme ++ rest.

(** The characters [encodeURIComponent] writes: the unreserved ones and
    the percent sign of an escape (whose two digits are unreserved). *)
Definition isEncodedUnit (c : Z) : bool := uriUnreserved c || (c =? 37).

(** A network whose only answer is a redirect to a [Location] that no
    URL parser resolves, on the parser of the examples. *)
Definition brokenRedirect : Response :=
  mkResponse 302 (js "Found") {[ js "location" := js "http://" ]} NullBody.

Definition brokenRedirectRuntime : Runtime :=
  mkRuntime Demo.URL_parse (fun _ _ => None) (fun _ => Ret brokenRedirect).

(** ** Proof automation *)

(** Decide the comparisons of the goal, keeping the branches that the
    arithmetic context allows. *)
Ltac zcases :=
  repeat match goal with
  | |- context [?a <? ?b] => destruct (Z.ltb_spec a b); try lia
  | |- context [?a <=? ?b] => destruct (Z.leb_spec a b); try lia
  | |- context [?a =? ?b] => destruct (Z.eqb_spec a b); try lia
  end.

(** Linear arithmetic with division and remainder by constants. *)
Ltac zdiv := Z.to_euclidean_division_equations; lia.

(** Two header names given in full differ. *)
Ltac distinct_names := vm_compute; discriminate.

(** Read a header through the writes of literal names above it. *)
Ltac read_header :=
  unfold Headers_get, Headers_set;
  repeat first
    [ rewrite lookup_insert_eq
    | rewrite lookup_insert_ne by distinct_names ].

(** A name is one of a list of names given in full. *)
Ltac listed_name :=
  apply list_elem_of_In; vm_compute; repeat first [left; reflexivity | right].

(** Prove one branch of a disjunction, whichever it is. *)
Ltac some_branch tac :=
  first [ solve [tac] | left; some_branch tac | right; some_branch tac ].

(* ================================================================== *)
(** * Part II. Properties                                             *)
(* ================================================================== *)

(** ** Completions *)

Lemma bind_Ret_inv {A B} (c : Completion A) (k : A -> Completion B) (b : B) :
  bind c k = Ret b -> exists a, c = Ret a /\ k a = Ret b.
Proof. destruct c as [a|e]; simpl; [eauto | discriminate]. Qed.

Lemma Ret_inj {A} (a b : A) : Ret a = Ret b -> a = b.
Proof. congruence. Qed.

(** ** Percent-encoding round trip *)

Lemma hexValue_hexDigit n : 0 <= n < 16 -> hexValue (hexDigit n) = Some n.
Proof.
  intros Hn. unfold hexValue, hexDigit, isDigit.
  destruct (Z.ltb_spec n 10); zcases; simpl; f_equal; lia.
Qed.

Lemma pctOctets_escape b t :
  0 <= b < 256 ->
  pctOctets (37 :: hexDigit (b / 16) :: hexDigit (b mod 16) :: t)
  = bind (pctOctets t) (fun R => Ret (Oct b :: R)).
Proof.
  intros Hb. cbn [pctOctets]. change (37 =? 37) with true. cbv iota.
  rewrite !hexValue_hexDigit by zdiv.
  replace (16 * (b / 16) + b mod 16) with b by zdiv. reflexivity.
Qed.

Lemma pctOctets_pctEscape octets t :
  Forall (fun b => 0 <= b < 256) octets ->
  pctOctets (pctEscape octets ++ t)
  = bind (pctOctets t) (fun R => Ret (List.map Oct octets ++ R)).
Proof.
  induction 1 as [|b octets Hb _ IH].
  - simpl. destruct (pctOctets t); reflexivity.
  - unfold pctEscape in *. cbn [flat_map List.map]. rewrite <- !app_assoc.
    cbn [app]. rewrite pctOctets_escape by assumption. rewrite IH.
    destruct (pctOctets t); reflexivity.
Qed.

Lemma pctOctets_literal c t :
  c <> 37 ->
  pctOctets (c :: t) = bind (pctOctets t) (fun R => Ret (Lit c :: R)).
Proof. intros Hc. cbn [pctOctets]. destruct (Z.eqb_spec c 37); [lia | reflexivity]. Qed.

Lemma uriUnreserved_ascii c : uriUnreserved c = true -> 0 <= c < 128 /\ c <> 37.
Proof.
  unfold uriUnreserved, isUpperAlpha, isLowerAlpha, isDigit. cbn [js existsb List.map
    list_ascii_of_string N_of_ascii N_of_digits Z.of_N].
  simpl. zcases; simpl; intros; try discriminate; lia.
Qed.

Lemma utf8Encode_octets cp :
  0 <= cp <= 0x10FFFF -> Forall (fun b => 0 <= b < 256) (utf8Encode cp).
Proof.
  intros Hcp. unfold utf8Encode.
  zcases; repeat constructor; zdiv.
Qed.

Lemma utf8Decode_one b t :
  0 <= b < 0x80 ->
  utf8Decode (Oct b :: t) = bind (utf8Decode t) (fun R => Ret (b :: R)).
Proof. intros Hb. cbn [utf8Decode]. destruct (Z.ltb_spec b 0x80); [reflexivity | lia]. Qed.

Lemma utf8Decode_two b0 b1 cp t :
  0xC0 <= b0 < 0xE0 -> decode2 b0 b1 = Some cp ->
  utf8Decode (Oct b0 :: Oct b1 :: t)
  = bind (utf8Decode t) (fun R => Ret (utf16Encode cp ++ R)).
Proof.
  intros Hb H. cbn [utf8Decode]. rewrite H.
  destruct (Z.ltb_spec b0 0x80); [lia|]. destruct (Z.ltb_spec b0 0xC0); [lia|].
  destruct (Z.ltb_spec b0 0xE0); [reflexivity | lia].
Qed.

Lemma utf8Decode_three b0 b1 b2 cp t :
  0xE0 <= b0 < 0xF0 -> decode3 b0 b1 b2 = Some cp ->
  utf8Decode (Oct b0 :: Oct b1 :: Oct b2 :: t)
  = bind (utf8Decode t) (fun R => Ret (utf16Encode cp ++ R)).
Proof.
  intros Hb H. cbn [utf8Decode]. rewrite H.
  destruct (Z.ltb_spec b0 0x80); [lia|]. destruct (Z.ltb_spec b0 0xC0); [lia|].
  destruct (Z.ltb_spec b0 0xE0); [lia|].
  destruct (Z.ltb_spec b0 0xF0); [reflexivity | lia].
Qed.

Lemma utf8Decode_four b0 b1 b2 b3 cp t :
  0xF0 <= b0 < 0xF8 -> decode4 b0 b1 b2 b3 = Some cp ->
  utf8Decode (Oct b0 :: Oct b1 :: Oct b2 :: Oct b3 :: t)
  = bind (utf8Decode t) (fun R => Ret (utf16Encode cp ++ R)).
Proof.
  intros Hb H. cbn [utf8Decode]. rewrite H.
  destruct (Z.ltb_spec b0 0x80); [lia|]. destruct (Z.ltb_spec b0 0xC0); [lia|].
  destruct (Z.ltb_spec b0 0xE0); [lia|]. destruct (Z.ltb_spec b0 0xF0); [lia|].
  destruct (Z.ltb_spec b0 0xF8); [reflexivity | lia].
Qed.

Lemma decode2_utf8 cp :
  0x80 <= cp < 0x800 -> decode2 (0xC0 + cp / 0x40) (0x80 + cp mod 0x40) = Some cp.
Proof.
  intros Hcp. unfold decode2, isContinuation.
  replace ((0xC0 + cp / 0x40 - 0xC0) * 0x40 + (0x80 + cp mod 0x40 - 0x80)) with cp by zdiv.
  destruct (Z.leb_spec 0x80 (0x80 + cp mod 0x40)); [|zdiv].
  destruct (Z.ltb_spec (0x80 + cp mod 0x40) 0xC0); [|zdiv].
  destruct (Z.leb_spec 0x80 cp); [reflexivity | lia].
Qed.

Lemma decode3_utf8 cp :
  0x800 <= cp < 0x10000 -> ~ (0xD800 <= cp <= 0xDFFF) ->
  decode3 (0xE0 + cp / 0x1000) (0x80 + (cp / 0x40) mod 0x40) (0x80 + cp mod 0x40)
  = Some cp.
Proof.
  intros Hcp Hs. unfold decode3, isContinuation.
  replace ((0xE0 + cp / 0x1000 - 0xE0) * 0x1000
           + (0x80 + (cp / 0x40) mod 0x40 - 0x80) * 0x40
           + (0x80 + cp mod 0x40 - 0x80)) with cp by zdiv.
  destruct (Z.leb_spec 0x80 (0x80 + (cp / 0x40) mod 0x40)); [|zdiv].
  destruct (Z.ltb_spec (0x80 + (cp / 0x40) mod 0x40) 0xC0); [|zdiv].
  destruct (Z.leb_spec 0x80 (0x80 + cp mod 0x40)); [|zdiv].
  destruct (Z.ltb_spec (0x80 + cp mod 0x40) 0xC0); [|zdiv].
  destruct (Z.leb_spec 0x800 cp); [|lia].
  destruct (Z.leb_spec 0xD800 cp); destruct (Z.leb_spec cp 0xDFFF);
    simpl; first [reflexivity | lia].
Qed.

Lemma decode4_utf8 cp :
  0x10000 <= cp <= 0x10FFFF ->
  decode4 (0xF0 + cp / 0x40000) (0x80 + (cp / 0x1000) mod 0x40)
          (0x80 + (cp / 0x40) mod 0x40) (0x80 + cp mod 0x40)
  = Some cp.
Proof.
  intros Hcp. unfold decode4, isContinuation.
  replace ((0xF0 + cp / 0x40000 - 0xF0) * 0x40000
           + (0x80 + (cp / 0x1000) mod 0x40 - 0x80) * 0x1000
           + (0x80 + (cp / 0x40) mod 0x40 - 0x80) * 0x40
           + (0x80 + cp mod 0x40 - 0x80)) with cp by zdiv.
  destruct (Z.leb_spec 0x80 (0x80 + (cp / 0x1000) mod 0x40)); [|zdiv].
  destruct (Z.ltb_spec (0x80 + (cp / 0x1000) mod 0x40) 0xC0); [|zdiv].
  destruct (Z.leb_spec 0x80 (0x80 + (cp / 0x40) mod 0x40)); [|zdiv].
  destruct (Z.ltb_spec (0x80 + (cp / 0x40) mod 0x40) 0xC0); [|zdiv].
  destruct (Z.leb_spec 0x80 (0x80 + cp mod 0x40)); [|zdiv].
  destruct (Z.ltb_spec (0x80 + cp mod 0x40) 0xC0); [|zdiv].
  destruct (Z.leb_spec 0x10000 cp); [|lia].
  destruct (Z.leb_spec cp 0x10FFFF); [reflexivity | lia].
Qed.

(** The octets of a scalar value decode to that value. *)
Lemma utf8Decode_utf8Encode cp t :
  0 <= cp <= 0x10FFFF -> ~ (0xD800 <= cp <= 0xDFFF) ->
  utf8Decode (List.map Oct (utf8Encode cp) ++ t)
  = bind (utf8Decode t) (fun R => Ret (utf16Encode cp ++ R)).
Proof.
  intros Hcp Hs. unfold utf8Encode.
  destruct (Z.ltb_spec cp 0x80); [|destruct (Z.ltb_spec cp 0x800);
    [|destruct (Z.ltb_spec cp 0x10000)]]; cbn [List.map app].
  - rewrite utf8Decode_one by lia. unfold utf16Encode.
    destruct (Z.leb_spec cp 0xFFFF); [reflexivity | lia].
  - apply utf8Decode_two; [zdiv | apply decode2_utf8; lia].
  - apply utf8Decode_three; [zdiv | apply decode3_utf8; lia].
  - apply utf8Decode_four; [zdiv | apply decode4_utf8; lia].
Qed.

Lemma utf16Encode_unit c : 0 <= c <= 0xFFFF -> utf16Encode c = [c].
Proof. intros Hc. unfold utf16Encode. destruct (Z.leb_spec c 0xFFFF); [reflexivity | lia]. Qed.

Lemma utf16Encode_pair c d :
  isLeadingSurrogate c = true -> isTrailingSurrogate d = true ->
  utf16Encode (pairToCodePoint c d) = [c; d]
  /\ 0x10000 <= pairToCodePoint c d <= 0x10FFFF.
Proof.
  unfold isLeadingSurrogate, isTrailingSurrogate, utf16Encode, pairToCodePoint.
  intros Hc Hd. apply andb_prop in Hc as [Hc1 Hc2]. apply andb_prop in Hd as [Hd1 Hd2].
  apply Z.leb_le in Hc1, Hc2, Hd1, Hd2.
  split; [|lia].
  destruct (Z.leb_spec ((c - 0xD800) * 0x400 + (d - 0xDC00) + 0x10000) 0xFFFF); [lia|].
  f_equal; [|f_equal]; zdiv.
Qed.

(** Induction over a well-formed string, one code point at a time. *)
Lemma isWellFormed_ind (P : list Z -> Prop) :
  P [] ->
  (forall c s, 0 <= c <= 0xFFFF -> isLeadingSurrogate c = false ->
               isTrailingSurrogate c = false -> P s -> P (c :: s)) ->
  (forall c d s, isLeadingSurrogate c = true -> isTrailingSurrogate d = true ->
                 P s -> P (c :: d :: s)) ->
  forall s, isWellFormed s = true -> P s.
Proof.
  intros Hnil Hunit Hpair s.
  remember (length s) as n eqn:Hn. revert s Hn.
  induction n as [n IH] using lt_wf_ind. intros s Hn Hwf.
  destruct s as [|c s]; [exact Hnil|].
  cbn [isWellFormed] in Hwf. destruct (isLeadingSurrogate c) eqn:Hlead.
  - destruct s as [|d s]; [discriminate|].
    apply andb_prop in Hwf as [Hd Hwf].
    apply Hpair; try assumption.
    apply (IH (length s)); [simpl in Hn; lia | reflexivity | assumption].
  - apply andb_prop in Hwf as [Hwf Hrest]. apply andb_prop in Hwf as [Hwf Htrail].
    apply andb_prop in Hwf as [H0 H1]. apply Z.leb_le in H0, H1.
    apply negb_true_iff in Htrail.
    apply Hunit; try assumption; [lia|].
    apply (IH (length s)); [simpl in Hn; lia | reflexivity | assumption].
Qed.

(** Encoding a well-formed string succeeds, and its escapes decode to
    the string itself. *)
Lemma Encode_decodes s :
  isWellFormed s = true ->
  exists e items,
    encodeURIComponent s = Ret e /\ pctOctets e = Ret items /\ utf8Decode items = Ret s.
Proof.
  unfold encodeURIComponent. revert s.
  apply (isWellFormed_ind (fun s => exists e items,
    Encode uriUnreserved s = Ret e /\ pctOctets e = Ret items /\ utf8Decode items = Ret s)).
  - exists [], []. repeat split.
  - intros c s Hc Hlead Htrail IH. destruct IH as (e & items & He & Hitems & Hdec).
    cbn [Encode]. rewrite He, Htrail, Hlead. cbn [bind].
    destruct (uriUnreserved c) eqn:Hu.
    + apply uriUnreserved_ascii in Hu as [_ Hu].
      exists (c :: e), (Lit c :: items). split; [reflexivity|].
      rewrite pctOctets_literal by assumption. rewrite Hitems. cbn [bind].
      split; [reflexivity|]. cbn [utf8Decode]. rewrite Hdec. reflexivity.
    + exists (pctEscape (utf8Encode c) ++ e), (List.map Oct (utf8Encode c) ++ items).
      split; [reflexivity|].
      rewrite pctOctets_pctEscape by (apply utf8Encode_octets; lia).
      rewrite Hitems. cbn [bind]. split; [reflexivity|].
      assert (~ (0xD800 <= c <= 0xDFFF)) as Hs.
      { unfold isLeadingSurrogate, isTrailingSurrogate in *. intros Hs.
        destruct (Z.leb_spec 0xD800 c); [|lia].
        destruct (Z.leb_spec c 0xDBFF); [discriminate|].
        destruct (Z.leb_spec 0xDC00 c); [|lia].
        destruct (Z.leb_spec c 0xDFFF); [discriminate|lia]. }
      rewrite utf8Decode_utf8Encode by (assumption || lia).
      rewrite Hdec. cbn [bind]. rewrite utf16Encode_unit by assumption. reflexivity.
  - intros c d s Hlead Htrail IH. destruct IH as (e & items & He & Hitems & Hdec).
    destruct (utf16Encode_pair c d Hlead Htrail) as [Hpair Hrange].
    assert (uriUnreserved c = false) as Hu.
    { destruct (uriUnreserved c) eqn:Hu; [|reflexivity].
      apply uriUnreserved_ascii in Hu. unfold isLeadingSurrogate in Hlead.
      apply andb_prop in Hlead as [Hl _]. apply Z.leb_le in Hl. lia. }
    assert (isTrailingSurrogate c = false) as Hct.
    { unfold isLeadingSurrogate, isTrailingSurrogate in *.
      apply andb_prop in Hlead as [_ Hl]. apply Z.leb_le in Hl.
      destruct (Z.leb_spec 0xDC00 c); [lia | reflexivity]. }
    cbn [Encode]. rewrite Hu, Hct, Hlead, Htrail, He. cbn [bind].
    exists (pctEscape (utf8Encode (pairToCodePoint c d)) ++ e),
           (List.map Oct (utf8Encode (pairToCodePoint c d)) ++ items).
    split; [reflexivity|].
    rewrite pctOctets_pctEscape by (apply utf8Encode_octets; lia).
    rewrite Hitems. cbn [bind]. split; [reflexivity|].
    rewrite utf8Decode_utf8Encode by lia.
    rewrite Hdec. cbn [bind]. rewrite Hpair. reflexivity.
Qed.


(** ** Header maps *)

Lemma lowerUnit_idemp c : lowerUnit (lowerUnit c) = lowerUnit c.
Proof.
  unfold lowerUnit, isUpperAlpha.
  destruct ((65 <=? c) && (c <=? 90)) eqn:E; [|rewrite E; reflexivity].
  apply andb_prop in E as [E1 E2]. apply Z.leb_le in E1, E2.
  destruct (Z.leb_spec (c + 32) 90); [lia|]. rewrite andb_false_r. reflexivity.
Qed.

Lemma toLowerCase_idemp s : toLowerCase (toLowerCase s) = toLowerCase s.
Proof.
  unfold toLowerCase. rewrite List.map_map. apply List.map_ext.
  intros c. apply lowerUnit_idemp.
Qed.

Lemma lowercaseNames_spec (h : Headers) name value :
  lowercaseNames h = true -> h !! name = Some value -> toLowerCase name = name.
Proof.
  unfold lowercaseNames. intros Hall Hin.
  rewrite forallb_forall in Hall.
  apply elem_of_map_to_list in Hin. apply list_elem_of_In in Hin.
  apply Hall in Hin. simpl in Hin. apply bool_decide_eq_true in Hin. exact Hin.
Qed.

Lemma Headers_get_set_same (h : Headers) name name' value :
  toLowerCase name = toLowerCase name' ->
  Headers_get (Headers_set h name value) name' = Some value.
Proof. intros E. unfold Headers_get, Headers_set. rewrite E. apply lookup_insert_eq. Qed.

Lemma Headers_get_set_other (h : Headers) name name' value :
  toLowerCase name <> toLowerCase name' ->
  Headers_get (Headers_set h name value) name' = Headers_get h name'.
Proof. intros E. unfold Headers_get, Headers_set. apply lookup_insert_ne. exact E. Qed.

Lemma startsWith_app s p : startsWith s p = true -> exists rest, s = p ++ rest.
Proof.
  revert s. induction p as [|a p IH]; intros s H.
  - exists s. reflexivity.
  - destruct s as [|b s]; [discriminate|]. cbn [startsWith] in H.
    apply andb_prop in H as [Hab H]. apply Z.eqb_eq in Hab as ->.
    destruct (IH s H) as [rest ->]. exists rest. reflexivity.
Qed.

(** ** The outbound header policy *)

Section Overlay.

Local Abbreviation step := forwardHeader.

Lemma overlay_untouched (l : list (list Z * list Z)) (acc : Headers) key :
  Forall (fun kv => toLowerCase kv.1 = kv.1) l ->
  (excluded key = true \/ key ∉ l.*1) ->
  foldl step acc l !! key = acc !! key.
Proof.
  intros Hlow. revert acc. induction Hlow as [|[k v] l Hk _ IH]; intros acc Hkey.
  - reflexivity.
  - cbn [foldl]. rewrite IH.
    + unfold step. cbn [fst snd] in *. destruct (excluded k) eqn:Hex; [reflexivity|].
      cbn [negb]. unfold Headers_set. rewrite Hk. apply lookup_insert_ne.
      intros ->. destruct Hkey as [Hkey|Hkey]; [congruence|].
      apply Hkey. cbn [fmap list_fmap fst]. apply list_elem_of_here.
    + destruct Hkey as [Hkey|Hkey]; [left; exact Hkey|right].
      intros Hin. apply Hkey. cbn [fmap list_fmap]. apply list_elem_of_further. exact Hin.
Qed.

Lemma overlay_written (l : list (list Z * list Z)) (acc : Headers) key value :
  Forall (fun kv => toLowerCase kv.1 = kv.1) l ->
  NoDup l.*1 -> (key, value) ∈ l -> excluded key = false ->
  foldl step acc l !! key = Some value.
Proof.
  intros Hlow. revert acc. induction Hlow as [|[k v] l Hk Hlow IH]; intros acc Hnd Hin Hex.
  - apply not_elem_of_nil in Hin. destruct Hin.
  - cbn [fmap list_fmap fst] in Hnd. apply NoDup_cons in Hnd as [Hfresh Hnd].
    cbn [foldl]. apply elem_of_cons in Hin as [Heq|Hin].
    + injection Heq as <- <-.
      rewrite overlay_untouched by (assumption || (right; exact Hfresh)).
      unfold step. cbn [fst snd] in *. rewrite Hex. cbn [negb].
      unfold Headers_set. rewrite Hk. apply lookup_insert_eq.
    + apply IH; assumption.
Qed.

(** The loop leaves under each name the caller's value when the caller
    sent the name and the name passes the test of line 126, and what was
    there before otherwise. *)
Lemma overlay_lookup (caller acc : Headers) key :
  lowercaseNames caller = true ->
  foldl step acc (Headers_entries caller) !! key
  = match (if excluded key then None else caller !! key) with
    | Some value => Some value
    | None => acc !! key
    end.
Proof.
  intros Hlow. unfold Headers_entries.
  assert (Forall (fun kv => toLowerCase kv.1 = kv.1) (map_to_list caller)) as Hall.
  { apply Forall_forall. intros [k v] Hin. apply elem_of_map_to_list in Hin.
    simpl. eapply lowercaseNames_spec; eassumption. }
  destruct (excluded key) eqn:Hex.
  - apply overlay_untouched; [exact Hall | left; exact Hex].
  - destruct (caller !! key) as [value|] eqn:Hget.
    + apply overlay_written; try assumption.
      * apply NoDup_fst_map_to_list.
      * apply elem_of_map_to_list. exact Hget.
    + apply overlay_untouched; [exact Hall | right].
      intros Hin. apply list_elem_of_fmap in Hin as ([k v] & -> & Hin).
      apply elem_of_map_to_list in Hin. simpl in Hget. congruence.
Qed.

End Overlay.

(** The header set of [buildProxyHeaders], read under a name: the value
    forced on a streaming request, else the caller's value when the name
    passes the test of line 126, else the default. *)
Lemma buildProxyHeaders_lookup (request : Request) (isStreaming : bool) (name : list Z) :
  lowercaseNames (req_headers request) = true ->
  Headers_get (buildProxyHeaders request isStreaming) name
  = match (if isStreaming then forcedRequestHeader (toLowerCase name) else None) with
    | Some forced => Some forced
    | None =>
      match (if excluded name then None else Headers_get (req_headers request) name) with
      | Some value => Some value
      | None => Headers_get (Headers_new DEFAULT_HEADERS) name
      end
    end.
Proof.
  intros Hlow. unfold Headers_get.
  assert (excluded name = excluded (toLowerCase name)) as ->.
  { unfold excluded. rewrite toLowerCase_idemp. reflexivity. }
  set (key := toLowerCase name).
  assert (foldl forwardHeader (Headers_new DEFAULT_HEADERS)
                (Headers_entries (req_headers request)) !! key
          = match (if excluded key then None else req_headers request !! key) with
            | Some value => Some value
            | None => Headers_new DEFAULT_HEADERS !! key
            end) as Hloop by (apply overlay_lookup; assumption).
  unfold buildProxyHeaders. destruct isStreaming; [|exact Hloop].
  unfold Headers_set, forcedRequestHeader.
  change (toLowerCase (js "Cache-Control")) with (js "cache-control").
  change (toLowerCase (js "Pragma")) with (js "pragma").
  change (toLowerCase (js "Connection")) with (js "connection").
  destruct (bool_decide_reflect (key = js "cache-control")) as [->|Hcache].
  { rewrite !lookup_insert_ne by distinct_names. apply lookup_insert_eq. }
  destruct (bool_decide_reflect (key = js "pragma")) as [->|Hpragma].
  { rewrite lookup_insert_ne by distinct_names. apply lookup_insert_eq. }
  destruct (bool_decide_reflect (key = js "connection")) as [->|Hconnection].
  { apply lookup_insert_eq. }
  rewrite !lookup_insert_ne by congruence. exact Hloop.
Qed.

(** ** Responses *)

Lemma Response_new_inv body init r :
  Response_new body init = Ret r ->
  resp_status r = init_status init /\ resp_statusText r = init_statusText init
  /\ resp_body r = body
  /\ forall name, toLowerCase name <> js "content-type" ->
       Headers_get (resp_headers r) name = Headers_get (init_headers init) name.
Proof.
  unfold Response_new.
  destruct (negb _); [discriminate|]. destruct (negb _); [discriminate|].
  destruct body as [|text|handle].
  - intros [= <-]. repeat split.
  - destruct (nullBodyStatus _); [discriminate|].
    destruct (Headers_has _ _); intros [= <-]; repeat split.
    intros name Hname. cbn [resp_headers]. apply Headers_get_set_other.
    intros E. apply Hname. rewrite <- E. reflexivity.
  - destruct (nullBodyStatus _); [discriminate|]. intros [= <-]. repeat split.
Qed.

Lemma Response_new_network response headers :
  fromNetwork response = true ->
  Response_new (resp_body response)
    (mkResponseInit (resp_status response) (resp_statusText response) headers)
  = Ret (mkResponse (resp_status response) (resp_statusText response) headers
                    (resp_body response)).
Proof.
  unfold fromNetwork, Response_new. cbn [init_status init_statusText init_headers].
  intros H. apply andb_prop in H as [H Hbody]. apply andb_prop in H as [Hrange Hphrase].
  rewrite Hrange, Hphrase. cbn [negb].
  destruct (resp_body response) as [|text|handle]; [reflexivity|discriminate|].
  apply negb_true_iff in Hbody. rewrite Hbody. reflexivity.
Qed.

Lemma addCorsHeaders_fields response isStreaming :
  resp_status (addCorsHeaders response isStreaming) = resp_status response
  /\ resp_statusText (addCorsHeaders response isStreaming) = resp_statusText response
  /\ resp_body (addCorsHeaders response isStreaming) = resp_body response.
Proof. destruct isStreaming; repeat split. Qed.

Lemma addCorsHeaders_origin response isStreaming :
  Headers_get (resp_headers (addCorsHeaders response isStreaming))
              (js "Access-Control-Allow-Origin") = Some (js "*").
Proof.
  unfold addCorsHeaders, setHeader. destruct isStreaming; cbn [resp_headers];
    read_header; reflexivity.
Qed.

Lemma addCorsHeaders_other response isStreaming name :
  toLowerCase name ∉ corsNames isStreaming ->
  Headers_get (resp_headers (addCorsHeaders response isStreaming)) name
  = Headers_get (resp_headers response) name.
Proof.
  intros Hname. unfold addCorsHeaders, setHeader, Headers_get, Headers_set.
  destruct isStreaming; cbn [resp_headers];
    repeat (rewrite lookup_insert_ne;
            [|intros E; apply Hname; rewrite <- E; listed_name]);
    reflexivity.
Qed.

Lemma streamingHeaders_cache response :
  Headers_get (streamingHeaders response) (js "Cache-Control")
  = Some (js "no-cache, no-store, must-revalidate").
Proof.
  unfold streamingHeaders. destruct (Headers_has _ _); read_header; reflexivity.
Qed.

Lemma streamingHeaders_connection response :
  Headers_get (streamingHeaders response) (js "Connection") = Some (js "keep-alive").
Proof.
  unfold streamingHeaders. destruct (Headers_has _ _); read_header; reflexivity.
Qed.

Lemma streamingHeaders_other response name :
  toLowerCase name ∉ streamingNames ->
  Headers_get (streamingHeaders response) name = Headers_get (resp_headers response) name.
Proof.
  intros Hname. unfold streamingHeaders, Headers_get, Headers_set.
  destruct (Headers_has _ _);
    repeat (rewrite lookup_insert_ne;
            [|intros E; apply Hname; rewrite <- E; listed_name]);
    reflexivity.
Qed.

(** The header set after the decoration, and after the streaming
    headers, name by name. *)
Lemma addCorsHeaders_lookup response isStreaming key :
  resp_headers (addCorsHeaders response isStreaming) !! key
  = match corsValue isStreaming key with
    | Some value => Some value
    | None => resp_headers response !! key
    end.
Proof.
  unfold corsValue.
  destruct (bool_decide_reflect (key = js "access-control-allow-origin")) as [->|H1].
  { exact (addCorsHeaders_origin response isStreaming). }
  destruct (bool_decide_reflect (key = js "access-control-allow-methods")) as [->|H2].
  { unfold addCorsHeaders, setHeader. destruct isStreaming; cbn [resp_headers];
      read_header; reflexivity. }
  destruct (bool_decide_reflect (key = js "access-control-allow-headers")) as [->|H3].
  { unfold addCorsHeaders, setHeader. destruct isStreaming; cbn [resp_headers];
      read_header; reflexivity. }
  destruct (bool_decide_reflect (key = js "access-control-expose-headers")) as [->|H4].
  { unfold addCorsHeaders, setHeader. destruct isStreaming; cbn [resp_headers];
      read_header; reflexivity. }
  destruct isStreaming; cbn [andb].
  - destruct (bool_decide_reflect (key = js "access-control-allow-credentials"))
      as [->|H5].
    { unfold addCorsHeaders, setHeader. cbn [resp_headers]. read_header. reflexivity. }
    destruct (bool_decide_reflect (key = js "access-control-max-age")) as [->|H6].
    { unfold addCorsHeaders, setHeader. cbn [resp_headers]. read_header. reflexivity. }
    unfold addCorsHeaders, setHeader, Headers_set. cbn [resp_headers].
    rewrite !lookup_insert_ne by (intros E; subst key; vm_compute in *; congruence).
    reflexivity.
  - unfold addCorsHeaders, setHeader, Headers_set. cbn [resp_headers].
    rewrite !lookup_insert_ne by (intros E; subst key; vm_compute in *; congruence).
    reflexivity.
Qed.

Lemma streamingHeaders_lookup response key :
  streamingHeaders response !! key
  = match streamingValue response key with
    | Some value => Some value
    | None => resp_headers response !! key
    end.
Proof.
  unfold streamingValue.
  destruct (bool_decide_reflect (key = js "cache-control")) as [->|H1].
  { exact (streamingHeaders_cache response). }
  destruct (bool_decide_reflect (key = js "pragma")) as [->|H2].
  { unfold streamingHeaders. destruct (Headers_has _ _); read_header; reflexivity. }
  destruct (bool_decide_reflect (key = js "expires")) as [->|H3].
  { unfold streamingHeaders. destruct (Headers_has _ _); read_header; reflexivity. }
  destruct (bool_decide_reflect (key = js "connection")) as [->|H4].
  { exact (streamingHeaders_connection response). }
  destruct (bool_decide_reflect (key = js "accept-ranges")) as [->|H5].
  { unfold streamingHeaders, Headers_has, Headers_get, Headers_set.
    change (toLowerCase (js "accept-ranges")) with (js "accept-ranges").
    change (toLowerCase (js "Accept-Ranges")) with (js "accept-ranges").
    destruct (resp_headers response !! js "accept-ranges");
      rewrite lookup_insert_eq; reflexivity. }
  unfold streamingHeaders, Headers_set.
  destruct (Headers_has _ _);
    rewrite !lookup_insert_ne by (intros E; subst key; vm_compute in *; congruence);
    reflexivity.
Qed.

Section Pipeline.

Variable rt : Runtime.
Variables html_head html_tail : list Z.

(** *** [handleResponse] *)

Lemma handleResponse_not_redirect response originalUrl targetUrl isStreaming :
  isRedirect response = false ->
  handleResponse rt response originalUrl targetUrl isStreaming
  = shapeResponse response isStreaming.
Proof.
  unfold isRedirect, handleResponse. intros H.
  destruct (existsb _ _); [|reflexivity].
  destruct (Headers_get _ _) as [location|]; [|reflexivity].
  cbn [andb] in H. rewrite H. reflexivity.
Qed.

Lemma handleResponse_redirect response originalUrl targetUrl isStreaming :
  isRedirect response = true ->
  exists location,
    Headers_get (resp_headers response) (js "location") = Some location
    /\ handleResponse rt response originalUrl targetUrl isStreaming
       = rewriteRedirect rt response originalUrl targetUrl location isStreaming.
Proof.
  unfold isRedirect, handleResponse. intros H.
  destruct (existsb _ _); [|discriminate].
  destruct (Headers_get _ _) as [location|]; [|discriminate].
  cbn [andb] in H. rewrite H. exists location. split; reflexivity.
Qed.

Lemma shapeResponse_network response isStreaming :
  fromNetwork response = true ->
  shapeResponse response isStreaming
  = Ret (addCorsHeaders
           (mkResponse (resp_status response) (resp_statusText response)
              (if isStreaming then streamingHeaders response else resp_headers response)
              (resp_body response))
           isStreaming).
Proof.
  intros Hnet. unfold shapeResponse, handleStreamingResponse.
  destruct isStreaming; rewrite Response_new_network by assumption; reflexivity.
Qed.

Lemma rewriteRedirect_network response originalUrl targetUrl location isStreaming
    redirectUrl encoded :
  fromNetwork response = true ->
  URL_parse rt location (Some targetUrl) = Ret redirectUrl ->
  encodeURIComponent (href redirectUrl) = Ret encoded ->
  rewriteRedirect rt response originalUrl targetUrl location isStreaming
  = Ret (addCorsHeaders
           (mkResponse (resp_status response) (resp_statusText response)
              (Headers_set (resp_headers response) (js "Location")
                 (js "https://" ++ host originalUrl ++ js "/" ++ encoded))
              (resp_body response))
           isStreaming).
Proof.
  intros Hnet Hparse Henc. unfold rewriteRedirect, proxiedLocation.
  rewrite Hparse. cbn [bind]. rewrite Henc. cbn [bind].
  rewrite Response_new_network by assumption. reflexivity.
Qed.

Lemma shapeResponse_origin response isStreaming r :
  shapeResponse response isStreaming = Ret r ->
  Headers_get (resp_headers r) (js "Access-Control-Allow-Origin") = Some (js "*").
Proof.
  unfold shapeResponse, handleStreamingResponse. destruct isStreaming; intros H;
    apply bind_Ret_inv in H as (r' & _ & H); apply Ret_inj in H as <-;
    apply addCorsHeaders_origin.
Qed.

Lemma rewriteRedirect_origin response originalUrl targetUrl location isStreaming r :
  rewriteRedirect rt response originalUrl targetUrl location isStreaming = Ret r ->
  Headers_get (resp_headers r) (js "Access-Control-Allow-Origin") = Some (js "*").
Proof.
  unfold rewriteRedirect. intros H.
  apply bind_Ret_inv in H as (u & _ & H). apply bind_Ret_inv in H as (l & _ & H).
  apply bind_Ret_inv in H as (r' & _ & H). apply Ret_inj in H as <-.
  apply addCorsHeaders_origin.
Qed.

Lemma handleResponse_origin response originalUrl targetUrl isStreaming r :
  handleResponse rt response originalUrl targetUrl isStreaming = Ret r ->
  Headers_get (resp_headers r) (js "Access-Control-Allow-Origin") = Some (js "*").
Proof.
  destruct (isRedirect response) eqn:Hred.
  - destruct (handleResponse_redirect response originalUrl targetUrl isStreaming Hred)
      as (location & _ & ->).
    apply rewriteRedirect_origin.
  - rewrite handleResponse_not_redirect by assumption. apply shapeResponse_origin.
Qed.

(** What the streaming shaping leaves on a response that is returned. *)
Lemma handleStreamingResponse_shaped response r :
  handleStreamingResponse response = Ret r ->
  Headers_get (resp_headers r) (js "Cache-Control")
  = Some (js "no-cache, no-store, must-revalidate")
  /\ Headers_get (resp_headers r) (js "Connection") = Some (js "keep-alive").
Proof.
  unfold handleStreamingResponse. intros H.
  apply bind_Ret_inv in H as (r' & Hnew & H). apply Ret_inj in H as <-.
  apply Response_new_inv in Hnew as (_ & _ & _ & Hheaders).
  cbn [init_headers] in Hheaders.
  split.
  - rewrite addCorsHeaders_other by (intros Hin; apply list_elem_of_In in Hin;
      vm_compute in Hin; intuition discriminate).
    rewrite Hheaders by distinct_names. apply streamingHeaders_cache.
  - rewrite addCorsHeaders_other by (intros Hin; apply list_elem_of_In in Hin;
      vm_compute in Hin; intuition discriminate).
    rewrite Hheaders by distinct_names. apply streamingHeaders_connection.
Qed.

(** *** [handleRequest] *)

Lemma errorResponse_value error :
  errorResponse error
  = Ret (mkResponse 502 []
           (Headers_new [("Content-Type", "text/plain; charset=utf-8")%string])
           (TextBody (errorPrefix ++ err_message error))).
Proof. reflexivity. Qed.

Lemma getConfigPage_value hostname :
  getConfigPage html_head html_tail hostname
  = Ret (mkResponse 200 []
           (Headers_new [("Content-Type", "text/html; charset=utf-8")%string])
           (TextBody (html_head ++ hostname ++ html_tail))).
Proof. reflexivity. Qed.

Lemma handleRequest_undecodable request url error :
  URL_parse rt (req_url request) None = Ret url ->
  extractTarget (pathname url) = Throw error ->
  handleRequest rt html_head html_tail request = Throw error.
Proof.
  unfold handleRequest. intros Hurl Htarget.
  rewrite Hurl. cbn [bind]. rewrite Htarget. reflexivity.
Qed.

Lemma handleRequest_empty request url :
  URL_parse rt (req_url request) None = Ret url ->
  extractTarget (pathname url) = Ret [] ->
  handleRequest rt html_head html_tail request = getConfigPage html_head html_tail (hostname url).
Proof.
  unfold handleRequest. intros Hurl Htarget.
  rewrite Hurl. cbn [bind]. rewrite Htarget. reflexivity.
Qed.

Lemma handleRequest_target request url targetUrl :
  URL_parse rt (req_url request) None = Ret url ->
  extractTarget (pathname url) = Ret targetUrl ->
  truthy targetUrl = true ->
  handleRequest rt html_head html_tail request
  = match forward rt request targetUrl with
    | Ret response =>
      handleResponse rt response url targetUrl (isStreamingRequest request targetUrl)
    | Throw error => errorResponse error
    end.
Proof.
  unfold handleRequest. intros Hurl Htarget Ht.
  rewrite Hurl. cbn [bind]. rewrite Htarget. cbn [bind]. rewrite Ht. reflexivity.
Qed.

End Pipeline.

(** ** Streaming classification *)

Lemma streaming_pattern_needs_text pattern :
  In pattern STREAMING_URL_PATTERNS -> RegExp.test pattern [] = false.
Proof.
  assert (forallb (fun p => negb (RegExp.test p [])) STREAMING_URL_PATTERNS = true) as H
    by reflexivity.
  rewrite forallb_forall in H. intros Hin. apply H in Hin.
  apply negb_true_iff in Hin. exact Hin.
Qed.

Lemma isStreamingUrl_pattern pattern url :
  In pattern STREAMING_URL_PATTERNS -> RegExp.test pattern url = true ->
  isStreamingUrl url = true /\ truthy url = true.
Proof.
  intros Hin Htest. split.
  - unfold isStreamingUrl. apply existsb_exists. exists pattern. split; assumption.
  - destruct url; [|reflexivity].
    rewrite streaming_pattern_needs_text in Htest by assumption. discriminate.
Qed.

Example playlist_is_streaming : isStreamingUrl (js "https://x.test/a.m3u8") = true.
Proof. reflexivity. Qed.

Example rtmp_is_streaming : isStreamingUrl (js "rtmp://x.test/live/k") = true.
Proof. reflexivity. Qed.

Example page_is_not_streaming : isStreamingUrl (js "https://origin.test/page") = false.
Proof. reflexivity. Qed.

(** ** The exclusion list *)

Lemma excluded_as_named key :
  (startsWith key (js "host") = true -> key = js "host") ->
  toLowerCase key = key ->
  excluded key = namedForExclusion key.
Proof.
  intros Hhost Hlow. unfold excluded, namedForExclusion, EXCLUDED_HEADERS.
  cbn [existsb]. rewrite Hlow. rewrite orb_false_r, orb_assoc. f_equal.
  destruct (startsWith key (js "host")) eqn:Hs.
  - symmetry. apply bool_decide_eq_true. apply Hhost. reflexivity.
  - symmetry. apply bool_decide_eq_false. intros ->. discriminate.
Qed.

(** The response of the [catch] clause, whatever was thrown inside the
    [try] block. *)
Lemma caught_failure_yields_502 (rt : Runtime) (html_head html_tail : list Z)
    (request : Request) (url : URL) (targetUrl : list Z) (error : JsError) :
  URL_parse rt (req_url request) None = Ret url ->
  extractTarget (pathname url) = Ret targetUrl ->
  truthy targetUrl = true ->
  forward rt request targetUrl = Throw error ->
  handleRequest rt html_head html_tail request
  = Ret (mkResponse 502 []
           (Headers_new [("Content-Type", "text/plain; charset=utf-8")%string])
           (TextBody (errorPrefix ++ err_message error))).
Proof.
  intros Hurl Htarget Ht Hthrow.
  rewrite (handleRequest_target rt html_head html_tail request url targetUrl)
    by assumption.
  rewrite Hthrow. apply errorResponse_value.
Qed.

(* ================================================================== *)
(** * Part III. The claims                                            *)
(* ================================================================== *)

(** C1, at the failing input. The request path [/%] holds a malformed
    escape; [decodeURIComponent] (line 53) throws before the [try] block
    is entered, so the promise of [handleRequest] rejects with the
    URIError: no 502 response is produced. *)
Theorem malformed_escape_rejects :
  Demo.run (Demo.request "GET" "/%" ∅) = Throw malformed.
Proof. reflexivity. Qed.

(** C2, as stated, fails: the configuration page and the synthetic 502
    response are returned without [Access-Control-Allow-Origin]. *)
Lemma page_and_error_lack_cors :
  let page :=
    mkResponse 200 [] {[ js "content-type" := js "text/html; charset=utf-8" ]}
               (TextBody (js "proxy.test")) in
  let failure :=
    mkResponse 502 [] {[ js "content-type" := js "text/plain; charset=utf-8" ]}
               (TextBody (errorPrefix ++ js "internal error")) in
  Demo.run (Demo.request "GET" "/" ∅) = Ret page
  /\ Headers_get (resp_headers page) (js "Access-Control-Allow-Origin") = None
  /\ Demo.run (Demo.request "GET" "/https%3A%2F%2Funreachable.test%2F" ∅) = Ret failure
  /\ Headers_get (resp_headers failure) (js "Access-Control-Allow-Origin") = None.
Proof. repeat split; reflexivity. Qed.

(** C2, amended. When the outbound fetch resolves with a response, of
    any status, the response [handleRequest] returns carries
    [Access-Control-Allow-Origin: *]; the configuration page and the
    response of the [catch] clause are built without that header. *)
Theorem relayed_response_allows_any_origin (rt : Runtime) (html_head html_tail : list Z) :
  (forall request url targetUrl fetched response,
     URL_parse rt (req_url request) None = Ret url ->
     extractTarget (pathname url) = Ret targetUrl ->
     truthy targetUrl = true ->
     forward rt request targetUrl = Ret fetched ->
     handleRequest rt html_head html_tail request = Ret response ->
     Headers_get (resp_headers response) (js "Access-Control-Allow-Origin") = Some (js "*"))
  /\ (forall hostname, exists response,
        getConfigPage html_head html_tail hostname = Ret response
        /\ Headers_get (resp_headers response) (js "Access-Control-Allow-Origin") = None)
  /\ (forall error, exists response,
        errorResponse error = Ret response
        /\ Headers_get (resp_headers response) (js "Access-Control-Allow-Origin") = None).
Proof.
  split; [|split].
  - intros request url targetUrl fetched response Hurl Htarget Ht Hfetch.
    rewrite (handleRequest_target rt html_head html_tail request url targetUrl)
      by assumption.
    rewrite Hfetch. apply handleResponse_origin.
  - intros hostname. eexists. split; [apply getConfigPage_value | reflexivity].
  - intros error. eexists. split; [apply errorResponse_value | reflexivity].
Qed.

Lemma relayed_response_allows_any_origin_witness :
  Demo.run (Demo.request "GET" "/https%3A%2F%2Forigin.test%2Fpage" ∅)
  = Ret (addCorsHeaders Demo.page false)
  /\ Headers_get (resp_headers (addCorsHeaders Demo.page false))
                 (js "Access-Control-Allow-Origin") = Some (js "*").
Proof.
  assert (Demo.run (Demo.request "GET" "/https%3A%2F%2Forigin.test%2Fpage" ∅)
          = Ret (addCorsHeaders Demo.page false)) as Hrun by reflexivity.
  split; [exact Hrun|].
  apply (proj1 (relayed_response_allows_any_origin Demo.rt [] [])
           (Demo.request "GET" "/https%3A%2F%2Forigin.test%2Fpage" ∅)
           (Demo.url "/https%3A%2F%2Forigin.test%2Fpage")
           (js "https://origin.test/page") Demo.page).
  - reflexivity.
  - reflexivity.
  - reflexivity.
  - reflexivity.
  - exact Hrun.
Defined.

(** C3, at the failing input. The caller sends [host-id: 42]; the name
    is none of [host], [cf-...] and [x-forwarded-...], yet it is not
    forwarded: line 126 tests every entry of [EXCLUDED_HEADERS] as a
    prefix, the name [host] included. *)
Theorem host_prefixed_header_is_dropped :
  let request := Demo.request "GET" "/" {[ js "host-id" := js "42" ]} in
  Headers_get (req_headers request) (js "host-id") = Some (js "42")
  /\ namedForExclusion (js "host-id") = false
  /\ excluded (js "host-id") = true
  /\ Headers_get (buildProxyHeaders request false) (js "host-id") = None.
Proof. repeat split; reflexivity. Qed.

(** X1. The outbound header policy (lines 119-139). For a request whose
    header names are lower-case, and a name other than [Set-Cookie] that
    does not merely begin with [host], the outbound header set holds
    under that name: on a streaming request and for [Cache-Control],
    [Pragma] and [Connection], the forced value; otherwise the caller's
    value, when the caller sent the name and its lower-case form neither
    starts with [cf-] or [x-forwarded-] nor is [host]; otherwise the
    default of that name, if there is one. [Set-Cookie] is left out: of
    its lines, which [entries()] yields one by one, line 127 keeps the
    last, not the joined value [get] returns. *)
Theorem buildProxyHeaders_policy (request : Request) (isStreaming : bool) (name : list Z) :
  lowercaseNames (req_headers request) = true ->
  toLowerCase name <> js "set-cookie" ->
  (startsWith (toLowerCase name) (js "host") = true -> toLowerCase name = js "host") ->
  Headers_get (buildProxyHeaders request isStreaming) name
  = match (if isStreaming then forcedRequestHeader (toLowerCase name) else None) with
    | Some forced => Some forced
    | None =>
      match (if namedForExclusion (toLowerCase name) then None
             else Headers_get (req_headers request) name) with
      | Some value => Some value
      | None => Headers_get (Headers_new DEFAULT_HEADERS) name
      end
    end.
Proof.
  intros Hlow _ Hhost. rewrite buildProxyHeaders_lookup by assumption.
  assert (excluded name = namedForExclusion (toLowerCase name)) as ->; [|reflexivity].
  transitivity (excluded (toLowerCase name)).
  - unfold excluded. rewrite toLowerCase_idemp. reflexivity.
  - apply excluded_as_named; [assumption | apply toLowerCase_idemp].
Qed.

Lemma buildProxyHeaders_policy_witness :
  let request :=
    Demo.request "GET" "/https%3A%2F%2Fx.test%2Flive"
      {[ js "user-agent" := js "curl/8.5"; js "cf-ray" := js "8a1b";
         js "x-forwarded-for" := js "10.0.0.1"; js "host" := js "proxy.test" ]} in
  Headers_get (buildProxyHeaders request true) (js "User-Agent") = Some (js "curl/8.5")
  /\ Headers_get (buildProxyHeaders request true) (js "CF-Ray") = None
  /\ Headers_get (buildProxyHeaders request true) (js "X-Forwarded-For") = None
  /\ Headers_get (buildProxyHeaders request true) (js "Host") = None
  /\ Headers_get (buildProxyHeaders request true) (js "Pragma") = Some (js "no-cache")
  /\ Headers_get (buildProxyHeaders request true) (js "Accept-Encoding")
     = Some (js "gzip, deflate, br").
Proof.
  intros request.
  repeat apply conj;
    (rewrite buildProxyHeaders_policy;
     [reflexivity | reflexivity
      | intros H; vm_compute in H; discriminate H
      | intros H; first [reflexivity | vm_compute in H; discriminate H]]).
Defined.

(** X2. A caller header whose lower-case name starts with [cf-] or
    with [x-forwarded-] (such as [Cf-Connecting-IP] or
    [X-Forwarded-For]) is never present in the outbound header set. *)
Theorem platform_headers_are_not_forwarded (request : Request) (isStreaming : bool)
    (name : list Z) :
  lowercaseNames (req_headers request) = true ->
  startsWith (toLowerCase name) (js "cf-")
  || startsWith (toLowerCase name) (js "x-forwarded-") = true ->
  Headers_get (buildProxyHeaders request isStreaming) name = None.
Proof.
  intros Hlow Hname.
  assert (exists rest, toLowerCase name = js "cf-" ++ rest
                       \/ toLowerCase name = js "x-forwarded-" ++ rest) as [rest Hkey].
  { apply orb_prop in Hname as [H|H]; apply startsWith_app in H as [rest H];
      exists rest; [left|right]; exact H. }
  assert (forall other : list Z,
            other <> js "cf-" ++ rest -> other <> js "x-forwarded-" ++ rest ->
            other <> toLowerCase name) as Hne.
  { intros other H1 H2 E. destruct Hkey as [Hkey|Hkey]; rewrite Hkey in E; auto. }
  assert (excluded name = true) as Hex.
  { unfold excluded, EXCLUDED_HEADERS. cbn [existsb]. rewrite orb_assoc, Hname.
    reflexivity. }
  rewrite buildProxyHeaders_lookup by assumption. rewrite Hex.
  unfold Headers_get, forcedRequestHeader, Headers_new, Headers_set, DEFAULT_HEADERS.
  cbn [foldl fst snd].
  rewrite !lookup_insert_ne by (apply Hne; vm_compute; discriminate).
  rewrite lookup_empty.
  rewrite !bool_decide_eq_false_2
    by (intros E; symmetry in E; revert E; apply Hne; vm_compute; discriminate).
  destruct isStreaming; reflexivity.
Qed.

Lemma platform_headers_are_not_forwarded_witness :
  let request :=
    Demo.request "GET" "/https%3A%2F%2Fx.test%2Flive"
      {[ js "cf-connecting-ip" := js "203.0.113.7";
         js "x-forwarded-for" := js "203.0.113.7" ]} in
  Headers_get (buildProxyHeaders request true) (js "Cf-Connecting-IP") = None
  /\ Headers_get (buildProxyHeaders request true) (js "X-Forwarded-For") = None.
Proof.
  intros request.
  apply conj; apply platform_headers_are_not_forwarded; reflexivity.
Defined.

(** X3. When the caller supplies a [User-Agent], the outbound
    [User-Agent] is the caller's value, not the default. *)
Theorem caller_user_agent_wins (request : Request) (isStreaming : bool) (value : list Z) :
  lowercaseNames (req_headers request) = true ->
  Headers_get (req_headers request) (js "User-Agent") = Some value ->
  Headers_get (buildProxyHeaders request isStreaming) (js "User-Agent") = Some value.
Proof.
  intros Hlow Hsent. rewrite buildProxyHeaders_lookup by assumption.
  change (forcedRequestHeader (toLowerCase (js "User-Agent"))) with (@None (list Z)).
  change (excluded (js "User-Agent")) with false.
  cbv iota. rewrite Hsent. destruct isStreaming; reflexivity.
Qed.

Lemma caller_user_agent_wins_witness :
  let request :=
    Demo.request "GET" "/https%3A%2F%2Forigin.test%2Fpage"
      {[ js "user-agent" := js "curl/8.5" ]} in
  Headers_get (buildProxyHeaders request false) (js "User-Agent") = Some (js "curl/8.5")
  /\ Headers_get (Headers_new DEFAULT_HEADERS) (js "User-Agent") <> Some (js "curl/8.5").
Proof.
  intros request. apply conj.
  - apply caller_user_agent_wins; reflexivity.
  - vm_compute. discriminate.
Defined.

(** C4, as stated, fails: a redirect met on a streaming target is
    rewritten and returned without the streaming headers, and so is the
    502 response for the target of the specification's own example when
    it cannot be reached. *)
Lemma streaming_redirect_and_error_are_not_shaped :
  let redirect :=
    addCorsHeaders
      (mkResponse 302 (js "Found")
         {[ js "location" := js "https://proxy.test/https%3A%2F%2Fx.test%2Fa.m3u8" ]}
         NullBody) true in
  let failure :=
    mkResponse 502 [] {[ js "content-type" := js "text/plain; charset=utf-8" ]}
               (TextBody (errorPrefix ++ js "internal error")) in
  isStreamingUrl (js "https://x.test/old.m3u8") = true
  /\ Demo.run (Demo.request "GET" "/https%3A%2F%2Fx.test%2Fold.m3u8" ∅) = Ret redirect
  /\ Headers_get (resp_headers redirect) (js "Cache-Control") = None
  /\ Headers_get (resp_headers redirect) (js "Connection") = None
  /\ isStreamingUrl (js "rtmp://x.test/live/k") = true
  /\ Demo.run (Demo.request "GET" "/rtmp%3A%2F%2Fx.test%2Flive%2Fk" ∅) = Ret failure
  /\ Headers_get (resp_headers failure) (js "Cache-Control") = None
  /\ Headers_get (resp_headers failure) (js "Connection") = None.
Proof. repeat split; reflexivity. Qed.

(** C4, amended. A target that matches a streaming pattern makes the
    verdict true, and when the fetch resolves with a response that does
    not enter the redirect branch (no redirect status, or no non-empty
    [Location]), every response returned carries
    [Cache-Control: no-cache, no-store, must-revalidate] and
    [Connection: keep-alive]; one is returned whenever the fetched
    response is one the network can deliver. *)
Theorem streaming_target_response_is_shaped (rt : Runtime) (html_head html_tail : list Z)
    (request : Request) (url : URL) (targetUrl : list Z) (pattern : list RegExp.atom) :
  URL_parse rt (req_url request) None = Ret url ->
  extractTarget (pathname url) = Ret targetUrl ->
  In pattern STREAMING_URL_PATTERNS ->
  RegExp.test pattern targetUrl = true ->
  isStreamingUrl targetUrl = true
  /\ isStreamingRequest request targetUrl = true
  /\ forall fetched,
       forward rt request targetUrl = Ret fetched ->
       isRedirect fetched = false ->
       (forall response,
          handleRequest rt html_head html_tail request = Ret response ->
          Headers_get (resp_headers response) (js "Cache-Control")
          = Some (js "no-cache, no-store, must-revalidate")
          /\ Headers_get (resp_headers response) (js "Connection") = Some (js "keep-alive"))
       /\ (fromNetwork fetched = true ->
           exists response, handleRequest rt html_head html_tail request = Ret response).
Proof.
  intros Hurl Htarget Hin Htest.
  destruct (isStreamingUrl_pattern pattern targetUrl Hin Htest) as [Hstream Ht].
  assert (isStreamingRequest request targetUrl = true) as Hverdict.
  { unfold isStreamingRequest. rewrite Hstream. reflexivity. }
  split; [exact Hstream|]. split; [exact Hverdict|].
  intros fetched Hfetch Hred.
  rewrite (handleRequest_target rt html_head html_tail request url targetUrl)
    by assumption.
  rewrite Hfetch, Hverdict. rewrite handleResponse_not_redirect by assumption.
  split.
  - intros response. apply handleStreamingResponse_shaped.
  - intros Hnet. rewrite shapeResponse_network by assumption. eexists. reflexivity.
Qed.

Lemma streaming_target_response_is_shaped_witness :
  let request := Demo.request "GET" "/https%3A%2F%2Fx.test%2Fa.m3u8" ∅ in
  let response :=
    addCorsHeaders
      (mkResponse 200 (js "OK") (streamingHeaders Demo.playlist) (StreamBody 3)) true in
  Demo.run request = Ret response
  /\ Headers_get (resp_headers response) (js "Cache-Control")
     = Some (js "no-cache, no-store, must-revalidate")
  /\ Headers_get (resp_headers response) (js "Connection") = Some (js "keep-alive").
Proof.
  intros request response.
  assert (Demo.run request = Ret response) as Hrun by reflexivity.
  split; [exact Hrun|].
  apply (streaming_target_response_is_shaped Demo.rt [] [] request
           (Demo.url "/https%3A%2F%2Fx.test%2Fa.m3u8") (js "https://x.test/a.m3u8")
           (RegExp.lit ".m3u8" ++ [RegExp.EndOfInput])) with (fetched := Demo.playlist).
  - reflexivity.
  - reflexivity.
  - right. right. left. reflexivity.
  - reflexivity.
  - reflexivity.
  - reflexivity.
  - exact Hrun.
Defined.

(** C5. A target response with status 302 and [Location: /next], for
    the target [https://origin.test/a] and the service host
    [proxy.test], is returned with [Location] equal to
    [https://proxy.test/] followed by the percent-encoding of
    [https://origin.test/next], the URL the platform resolves [/next] to
    against the target. *)
Theorem relative_redirect_is_rewritten (rt : Runtime) (response : Response)
    (originalUrl redirectUrl : URL) (isStreaming : bool) :
  resp_status response = 302 ->
  Headers_get (resp_headers response) (js "location") = Some (js "/next") ->
  fromNetwork response = true ->
  host originalUrl = js "proxy.test" ->
  URL_parse rt (js "/next") (Some (js "https://origin.test/a")) = Ret redirectUrl ->
  href redirectUrl = js "https://origin.test/next" ->
  exists encoded returned,
    encodeURIComponent (js "https://origin.test/next") = Ret encoded
    /\ encoded = js "https%3A%2F%2Forigin.test%2Fnext"
    /\ handleResponse rt response originalUrl (js "https://origin.test/a") isStreaming
       = Ret returned
    /\ Headers_get (resp_headers returned) (js "Location")
       = Some (js "https://proxy.test/" ++ encoded).
Proof.
  intros Hstatus Hlocation Hnet Hhost Hparse Hhref.
  exists (js "https%3A%2F%2Forigin.test%2Fnext").
  assert (isRedirect response = true) as Hred.
  { unfold isRedirect. rewrite Hstatus, Hlocation. reflexivity. }
  destruct (handleResponse_redirect rt response originalUrl (js "https://origin.test/a")
              isStreaming Hred) as (location & Hget & ->).
  rewrite Hlocation in Hget. apply (inj Some) in Hget as <-.
  rewrite (rewriteRedirect_network rt response originalUrl (js "https://origin.test/a")
             (js "/next") isStreaming redirectUrl (js "https%3A%2F%2Forigin.test%2Fnext"))
    by (assumption || (rewrite Hhref; reflexivity)).
  eexists. split; [reflexivity|]. split; [reflexivity|]. split; [reflexivity|].
  rewrite addCorsHeaders_other
    by (intros Hin; apply list_elem_of_In in Hin; destruct isStreaming;
        vm_compute in Hin; intuition discriminate).
  cbn [resp_headers]. rewrite Hhost. apply Headers_get_set_same. reflexivity.
Qed.

Lemma relative_redirect_is_rewritten_witness :
  exists encoded returned,
    encodeURIComponent (js "https://origin.test/next") = Ret encoded
    /\ encoded = js "https%3A%2F%2Forigin.test%2Fnext"
    /\ handleResponse Demo.rt Demo.found (Demo.url "/https%3A%2F%2Forigin.test%2Fa")
         (js "https://origin.test/a") false
       = Ret returned
    /\ Headers_get (resp_headers returned) (js "Location")
       = Some (js "https://proxy.test/" ++ encoded).
Proof.
  apply (relative_redirect_is_rewritten Demo.rt Demo.found
           (Demo.url "/https%3A%2F%2Forigin.test%2Fa")
           (Demo.build (js "https") (js "origin.test") (js "/next")) false);
    reflexivity.
Defined.

(** C6. When the outbound fetch fails, [handleRequest] does not reject:
    it returns a response with status 502, [Content-Type: text/plain;
    charset=utf-8] and a text body, never empty, made of the prefix of
    line 83 and the message of the failure. *)
Theorem transport_failure_yields_502 (rt : Runtime) (html_head html_tail : list Z)
    (request : Request) (url : URL) (targetUrl : list Z) (proxyRequest : Request)
    (error : JsError) :
  URL_parse rt (req_url request) None = Ret url ->
  extractTarget (pathname url) = Ret targetUrl ->
  truthy targetUrl = true ->
  Request_new rt targetUrl
    (mkRequestInit (req_method request)
       (buildProxyHeaders request (isStreamingRequest request targetUrl))
       (req_body request) Manual) = Ret proxyRequest ->
  fetch rt proxyRequest = Throw error ->
  exists response,
    handleRequest rt html_head html_tail request = Ret response
    /\ resp_status response = 502
    /\ Headers_get (resp_headers response) (js "Content-Type")
       = Some (js "text/plain; charset=utf-8")
    /\ resp_body response = TextBody (errorPrefix ++ err_message error)
    /\ errorPrefix ++ err_message error <> [].
Proof.
  intros Hurl Htarget Ht Hnew Hfetch.
  eexists. split.
  - apply (caught_failure_yields_502 rt html_head html_tail request url targetUrl error);
      try assumption.
    unfold forward. rewrite Hnew. exact Hfetch.
  - repeat split. discriminate.
Qed.

Lemma transport_failure_yields_502_witness :
  exists response,
    Demo.run (Demo.request "POST" "/https%3A%2F%2Funreachable.test%2Fingest" ∅)
    = Ret response
    /\ resp_status response = 502
    /\ Headers_get (resp_headers response) (js "Content-Type")
       = Some (js "text/plain; charset=utf-8")
    /\ resp_body response = TextBody (errorPrefix ++ js "internal error")
    /\ errorPrefix ++ js "internal error" <> [].
Proof.
  apply (transport_failure_yields_502 Demo.rt [] []
           (Demo.request "POST" "/https%3A%2F%2Funreachable.test%2Fingest" ∅)
           (Demo.url "/https%3A%2F%2Funreachable.test%2Fingest")
           (js "https://unreachable.test/ingest")
           (mkRequest (js "https://unreachable.test/ingest") (js "POST")
              (buildProxyHeaders
                 (Demo.request "POST" "/https%3A%2F%2Funreachable.test%2Fingest" ∅) false)
              NullBody Manual)
           Demo.unreachable);
    reflexivity.
Defined.

(** C7. A request whose path decodes to the empty string is answered
    with the configuration page: status 200, [Content-Type: text/html;
    charset=utf-8] and the markup around the service's host name; the
    method, headers and body of the request play no part. *)
Theorem empty_path_shows_configuration_page (rt : Runtime) (html_head html_tail : list Z)
    (request : Request) (url : URL) :
  URL_parse rt (req_url request) None = Ret url ->
  extractTarget (pathname url) = Ret [] ->
  exists response,
    handleRequest rt html_head html_tail request = Ret response
    /\ resp_status response = 200
    /\ Headers_get (resp_headers response) (js "Content-Type")
       = Some (js "text/html; charset=utf-8")
    /\ resp_body response = TextBody (html_head ++ hostname url ++ html_tail)
    /\ forall method headers body redirect,
         handleRequest rt html_head html_tail
           (mkRequest (req_url request) method headers body redirect)
         = Ret response.
Proof.
  intros Hurl Htarget. eexists. split; [|split; [|split; [|split]]].
  - rewrite (handleRequest_empty rt html_head html_tail request url) by assumption.
    apply getConfigPage_value.
  - reflexivity.
  - reflexivity.
  - reflexivity.
  - intros method headers body redirect.
    rewrite (handleRequest_empty rt html_head html_tail _ url) by assumption.
    apply getConfigPage_value.
Qed.

Lemma empty_path_shows_configuration_page_witness :
  exists response,
    Demo.run (Demo.request "DELETE" "/" {[ js "content-type" := js "video/mp4" ]})
    = Ret response
    /\ resp_status response = 200
    /\ Headers_get (resp_headers response) (js "Content-Type")
       = Some (js "text/html; charset=utf-8")
    /\ resp_body response = TextBody ([] ++ js "proxy.test" ++ [])
    /\ forall method headers body redirect,
         Demo.run (mkRequest (js "https://proxy.test/") method headers body redirect)
         = Ret response.
Proof.
  apply (empty_path_shows_configuration_page Demo.rt [] []
           (Demo.request "DELETE" "/" {[ js "content-type" := js "video/mp4" ]})
           (Demo.url "/"));
    reflexivity.
Defined.

(** C8. A response with a redirect status and no [Location] header
    takes the path of every other response (lines 167-179): what
    [handleResponse] returns has the status, status text and body of the
    target's response and still no [Location]; under every name it holds
    the value [addCorsHeaders] writes, else on a streaming request the
    value [handleStreamingResponse] writes (with [Accept-Ranges] the
    target's value, or [bytes] when it sent none), else the target's own
    value. *)
Theorem redirect_without_location_is_shaped (rt : Runtime) (response : Response)
    (originalUrl : URL) (targetUrl : list Z) (isStreaming : bool) :
  In (resp_status response) [301; 302; 303; 307; 308] ->
  Headers_get (resp_headers response) (js "location") = None ->
  fromNetwork response = true ->
  exists returned,
    handleResponse rt response originalUrl targetUrl isStreaming = Ret returned
    /\ resp_status returned = resp_status response
    /\ resp_statusText returned = resp_statusText response
    /\ resp_body returned = resp_body response
    /\ Headers_get (resp_headers returned) (js "Location") = None
    /\ forall name,
         Headers_get (resp_headers returned) name
         = match corsValue isStreaming (toLowerCase name) with
           | Some value => Some value
           | None =>
             match (if isStreaming then streamingValue response (toLowerCase name)
                    else None) with
             | Some value => Some value
             | None => Headers_get (resp_headers response) name
             end
           end.
Proof.
  intros _ Hlocation Hnet.
  assert (isRedirect response = false) as Hred.
  { unfold isRedirect. rewrite Hlocation. apply andb_false_r. }
  rewrite handleResponse_not_redirect by assumption.
  rewrite shapeResponse_network by assumption. eexists. split; [reflexivity|].
  destruct (addCorsHeaders_fields
              (mkResponse (resp_status response) (resp_statusText response)
                 (if isStreaming then streamingHeaders response else resp_headers response)
                 (resp_body response)) isStreaming) as (-> & -> & ->).
  split; [reflexivity|]. split; [reflexivity|]. split; [reflexivity|].
  assert (forall key,
            resp_headers
              (addCorsHeaders
                 (mkResponse (resp_status response) (resp_statusText response)
                    (if isStreaming then streamingHeaders response
                     else resp_headers response)
                    (resp_body response)) isStreaming) !! key
            = match corsValue isStreaming key with
              | Some value => Some value
              | None =>
                match (if isStreaming then streamingValue response key else None) with
                | Some value => Some value
                | None => resp_headers response !! key
                end
              end) as Htable.
  { intros key. rewrite addCorsHeaders_lookup. cbn [resp_headers].
    destruct isStreaming; [rewrite streamingHeaders_lookup|]; reflexivity. }
  split; [|intros name; apply Htable].
  unfold Headers_get. rewrite Htable.
  change (toLowerCase (js "Location")) with (js "location").
  assert (corsValue isStreaming (js "location") = None) as ->
    by (destruct isStreaming; reflexivity).
  assert ((if isStreaming then streamingValue response (js "location") else None) = None)
    as -> by (destruct isStreaming; reflexivity).
  exact Hlocation.
Qed.

Lemma redirect_without_location_is_shaped_witness :
  exists returned,
    handleResponse Demo.rt Demo.moved (Demo.url "/https%3A%2F%2Forigin.test%2Fmoved")
      (js "https://origin.test/moved") true = Ret returned
    /\ resp_status returned = 301
    /\ resp_statusText returned = js "Moved Permanently"
    /\ resp_body returned = StreamBody 2
    /\ Headers_get (resp_headers returned) (js "Location") = None
    /\ forall name,
         Headers_get (resp_headers returned) name
         = match corsValue true (toLowerCase name) with
           | Some value => Some value
           | None =>
             match streamingValue Demo.moved (toLowerCase name) with
             | Some value => Some value
             | None => Headers_get (resp_headers Demo.moved) name
             end
           end.
Proof.
  apply (redirect_without_location_is_shaped Demo.rt Demo.moved
           (Demo.url "/https%3A%2F%2Forigin.test%2Fmoved")
           (js "https://origin.test/moved") true).
  - left. reflexivity.
  - reflexivity.
  - reflexivity.
Defined.

(** C9. For a redirect target that is a well-formed string (every URL
    the platform serialises is one), the rewritten [Location] is
    [https://], the service host, a slash and a segment; the segment, as
    the path of the next request, is decoded by lines 52-53 to the
    redirect target itself. *)
Theorem proxied_location_round_trip (originalUrl redirectUrl : URL) :
  isWellFormed (href redirectUrl) = true ->
  exists segment,
    proxiedLocation originalUrl redirectUrl
    = Ret (js "https://" ++ host originalUrl ++ js "/" ++ segment)
    /\ extractTarget (js "/" ++ segment) = Ret (href redirectUrl).
Proof.
  intros Hwf. destruct (Encode_decodes (href redirectUrl) Hwf)
    as (segment & items & Henc & Hitems & Hdec).
  exists segment. unfold proxiedLocation, extractTarget, decodeURIComponent.
  rewrite Henc. cbn [bind]. split; [reflexivity|].
  change (slice1 (js "/" ++ segment)) with segment.
  rewrite Hitems. exact Hdec.
Qed.

Lemma proxied_location_round_trip_witness :
  let target :=
    mkURL (js "https://origin.test/live/?q=a b&n=100%" ++ [0x76F4; 0x64AD; 0xD83D; 0xDE80])
          (js "origin.test") (js "origin.test") (js "/live/") in
  exists segment,
    proxiedLocation (Demo.url "/") target
    = Ret (js "https://" ++ js "proxy.test" ++ js "/" ++ segment)
    /\ extractTarget (js "/" ++ segment) = Ret (href target).
Proof.
  intros target.
  apply (proxied_location_round_trip (Demo.url "/") target). reflexivity.
Defined.

(** C10. A path that decodes to a non-empty string which the platform
    does not parse as an absolute URL makes [new Request] throw inside
    the [try] block; [handleRequest] returns the 502 plain-text response
    of the [catch] clause, which is not the configuration page. *)
Theorem invalid_target_yields_502 (rt : Runtime) (html_head html_tail : list Z)
    (request : Request) (url : URL) (targetUrl : list Z) (error : JsError) :
  URL_parse rt (req_url request) None = Ret url ->
  extractTarget (pathname url) = Ret targetUrl ->
  truthy targetUrl = true ->
  URL_parse rt targetUrl None = Throw error ->
  exists response,
    handleRequest rt html_head html_tail request = Ret response
    /\ resp_status response = 502
    /\ Headers_get (resp_headers response) (js "Content-Type")
       = Some (js "text/plain; charset=utf-8")
    /\ resp_body response = TextBody (errorPrefix ++ err_message error)
    /\ getConfigPage html_head html_tail (hostname url) <> Ret response.
Proof.
  intros Hurl Htarget Ht Hinvalid.
  eexists. split.
  - apply (caught_failure_yields_502 rt html_head html_tail request url targetUrl error);
      try assumption.
    unfold forward, Request_new. rewrite Hinvalid. reflexivity.
  - repeat split. rewrite getConfigPage_value. discriminate.
Qed.

Lemma invalid_target_yields_502_witness :
  exists response,
    Demo.run (Demo.request "GET" "/%2Ffoo" ∅) = Ret response
    /\ resp_status response = 502
    /\ Headers_get (resp_headers response) (js "Content-Type")
       = Some (js "text/plain; charset=utf-8")
    /\ resp_body response = TextBody (errorPrefix ++ js "Invalid URL")
    /\ getConfigPage [] [] (js "proxy.test") <> Ret response.
Proof.
  apply (invalid_target_yields_502 Demo.rt [] [] (Demo.request "GET" "/%2Ffoo" ∅)
           (Demo.url "/%2Ffoo") (js "/foo") Demo.invalidURL);
    reflexivity.
Defined.

(* ================================================================== *)
(** * Part IV. Further properties of the worker                       *)
(* ================================================================== *)

(** ** What the streaming patterns look for *)

Lemma sameChar_fold a b : RegExp.sameChar a b = true <-> lowerUnit a = lowerUnit b.
Proof.
  unfold RegExp.sameChar, RegExp.canonicalize, lowerUnit, isLowerAlpha, isUpperAlpha.
  rewrite Z.eqb_eq.
  destruct (Z.leb_spec 97 a), (Z.leb_spec a 122), (Z.leb_spec 97 b), (Z.leb_spec b 122),
    (Z.leb_spec 65 a), (Z.leb_spec a 90), (Z.leb_spec 65 b), (Z.leb_spec b 90);
    cbn [andb]; lia.
Qed.

Lemma foldCase_app s t : foldCase (s ++ t) = foldCase s ++ foldCase t.
Proof. apply List.map_app. Qed.

(** Literal atoms match a prefix that folds to the same text. *)
Lemma matchHere_literal w r s :
  RegExp.matchHere (List.map RegExp.Chr w ++ r) s = true
  <-> exists t u, s = t ++ u /\ foldCase t = foldCase w /\ RegExp.matchHere r u = true.
Proof.
  revert s. induction w as [|c w IH]; intros s.
  - cbn [List.map app]. split.
    + intros H. exists [], s. repeat split. exact H.
    + intros (t & u & -> & Ht & H). destruct t; [exact H | discriminate].
  - cbn [List.map app RegExp.matchHere]. destruct s as [|x s].
    + split; [discriminate|]. intros (t & u & E & Ht & _).
      destruct t; [discriminate | discriminate].
    + rewrite andb_true_iff, sameChar_fold, IH. split.
      * intros (Hx & t & u & -> & Ht & H). exists (x :: t), u.
        repeat split; [|exact H]. cbn [foldCase List.map]. f_equal; assumption.
      * intros (t & u & E & Ht & H). destruct t as [|y t]; [discriminate|].
        cbn [foldCase List.map app] in *. injection E as <- ->. injection Ht as Hx Ht.
        split; [exact Hx|]. exists t, u. repeat split; assumption.
Qed.

Lemma test_somewhere r s :
  RegExp.test r s = true <-> exists pre t, s = pre ++ t /\ RegExp.matchHere r t = true.
Proof.
  induction s as [|x s IH]; cbn [RegExp.test]; rewrite orb_true_iff.
  - split.
    + intros [H|H]; [|discriminate]. exists [], []. split; [reflexivity | exact H].
    + intros (pre & t & E & H). left. symmetry in E. apply app_eq_nil in E as [_ ->].
      exact H.
  - rewrite IH. split.
    + intros [H|(pre & t & -> & H)].
      * exists [], (x :: s). split; [reflexivity | exact H].
      * exists (x :: pre), t. split; [reflexivity | exact H].
    + intros (pre & t & E & H). destruct pre as [|y pre].
      * left. cbn [app] in E. rewrite E. exact H.
      * right. cbn [app] in E. injection E as _ ->. exists pre, t.
        split; [reflexivity | exact H].
Qed.

(** A text folds to [pre ++ w ++ post] when a part of it folds to [w]. *)
Lemma folds_to_infix s w :
  (exists pre t post, s = pre ++ t ++ post /\ foldCase t = w)
  <-> exists pre post, foldCase s = pre ++ w ++ post.
Proof.
  split.
  - intros (pre & t & post & -> & <-). exists (foldCase pre), (foldCase post).
    rewrite !foldCase_app. reflexivity.
  - intros (pre & post & E). unfold foldCase in E.
    apply map_eq_app in E as (pre' & rest & -> & Hpre & E).
    apply map_eq_app in E as (t & post' & -> & Ht & Hpost).
    exists pre', t, post'. split; [reflexivity | exact Ht].
Qed.

Lemma folds_to_suffix s w :
  (exists pre t, s = pre ++ t /\ foldCase t = w) <-> exists pre, foldCase s = pre ++ w.
Proof.
  split.
  - intros (pre & t & -> & <-). exists (foldCase pre). apply foldCase_app.
  - intros (pre & E). unfold foldCase in E.
    apply map_eq_app in E as (pre' & t & -> & _ & Ht).
    exists pre', t. split; [reflexivity | exact Ht].
Qed.

(** A pattern of literals: the text occurs somewhere, in any case. *)
Lemma test_literal w s :
  foldCase w = w ->
  RegExp.test (List.map RegExp.Chr w) s = true
  <-> exists pre post, foldCase s = pre ++ w ++ post.
Proof.
  intros Hw. rewrite test_somewhere, <- folds_to_infix. split.
  - intros (pre & t & -> & H). rewrite <- (app_nil_r (List.map RegExp.Chr w)) in H.
    apply matchHere_literal in H as (t' & u & -> & Ht & _).
    exists pre, t', u. split; [reflexivity | congruence].
  - intros (pre & t & post & -> & Ht). exists pre, (t ++ post). split; [reflexivity|].
    rewrite <- (app_nil_r (List.map RegExp.Chr w)). apply matchHere_literal.
    exists t, post. repeat split. congruence.
Qed.

(** Literals before the end anchor: the text is an ending, in any case. *)
Lemma test_literal_at_end w s :
  foldCase w = w ->
  RegExp.test (List.map RegExp.Chr w ++ [RegExp.EndOfInput]) s = true
  <-> exists pre, foldCase s = pre ++ w.
Proof.
  intros Hw. rewrite test_somewhere, <- folds_to_suffix. split.
  - intros (pre & t & -> & H).
    apply matchHere_literal in H as (t' & u & -> & Ht & H).
    destruct u; [|discriminate]. rewrite app_nil_r. exists pre, t'.
    split; [reflexivity | congruence].
  - intros (pre & t & -> & Ht). exists pre, t. split; [reflexivity|].
    apply matchHere_literal. exists t, []. rewrite app_nil_r. repeat split. congruence.
Qed.

(** Literals around one optional character. *)
Lemma test_literal_optional w c w' s :
  foldCase w = w -> lowerUnit c = c -> foldCase w' = w' ->
  RegExp.test (List.map RegExp.Chr w ++ [RegExp.OptClass [c]] ++ List.map RegExp.Chr w') s
  = true
  <-> (exists pre post, foldCase s = pre ++ (w ++ w') ++ post)
      \/ (exists pre post, foldCase s = pre ++ (w ++ c :: w') ++ post).
Proof.
  intros Hw Hc Hw'. rewrite test_somewhere, <- !folds_to_infix. split.
  - intros (pre & t & -> & H).
    apply matchHere_literal in H as (t1 & u & -> & Ht1 & H).
    cbn [app RegExp.matchHere] in H. apply orb_prop in H as [H|H].
    + destruct u as [|x u]; [discriminate|]. apply andb_prop in H as [Hx H].
      cbn [existsb] in Hx. rewrite orb_false_r in Hx. apply sameChar_fold in Hx.
      rewrite <- (app_nil_r (List.map RegExp.Chr w')) in H.
      apply matchHere_literal in H as (t2 & v & -> & Ht2 & _).
      right. exists pre, (t1 ++ x :: t2), v. split.
      * rewrite <- !app_assoc. reflexivity.
      * rewrite foldCase_app. cbn [foldCase List.map]. fold (foldCase t2). congruence.
    + rewrite <- (app_nil_r (List.map RegExp.Chr w')) in H.
      apply matchHere_literal in H as (t2 & v & -> & Ht2 & _).
      left. exists pre, (t1 ++ t2), v. split.
      * rewrite <- !app_assoc. reflexivity.
      * rewrite foldCase_app. congruence.
  - intros [(pre & t & post & -> & Ht)|(pre & t & post & -> & Ht)].
    + unfold foldCase in Ht. apply map_eq_app in Ht as (t1 & t2 & -> & Ht1 & Ht2).
      exists pre, ((t1 ++ t2) ++ post). split; [reflexivity|].
      apply matchHere_literal. exists t1, (t2 ++ post).
      split; [rewrite <- app_assoc; reflexivity|]. split; [rewrite Hw; exact Ht1|].
      cbn [app RegExp.matchHere]. apply orb_true_iff. right.
      rewrite <- (app_nil_r (List.map RegExp.Chr w')). apply matchHere_literal.
      exists t2, post. repeat split. rewrite Hw'. exact Ht2.
    + unfold foldCase in Ht. apply map_eq_app in Ht as (t1 & t2 & -> & Ht1 & Ht2).
      destruct t2 as [|x t2]; [discriminate|]. cbn [List.map] in Ht2.
      injection Ht2 as Hx Ht2.
      exists pre, ((t1 ++ x :: t2) ++ post). split; [reflexivity|].
      apply matchHere_literal. exists t1, (x :: t2 ++ post).
      split; [rewrite <- app_assoc; reflexivity|]. split; [rewrite Hw; exact Ht1|].
      cbn [app RegExp.matchHere]. apply orb_true_iff. left.
      apply andb_true_iff. split.
      * cbn [existsb]. rewrite orb_false_r. apply sameChar_fold. congruence.
      * rewrite <- (app_nil_r (List.map RegExp.Chr w')). apply matchHere_literal.
        exists t2, post. repeat split. rewrite Hw'. exact Ht2.
Qed.

(** X4. [isStreamingUrl] answers true exactly when the URL, its ASCII
    letters folded to lower case, contains one of [rtmp://], [rtmps://],
    [hls], [dash], [stream], [live], [broadcast] at any position, or ends
    with one of [.flv], [.m3u8], [.ts], [.mp4], [.webm]. *)
Theorem isStreamingUrl_looks_for (url : list Z) :
  isStreamingUrl url = true
  <-> (exists needle pre post,
         In needle streamingNeedles /\ foldCase url = pre ++ needle ++ post)
      \/ (exists extension pre,
            In extension streamingExtensions /\ foldCase url = pre ++ extension).
Proof.
  unfold isStreamingUrl, STREAMING_URL_PATTERNS, RegExp.lit. cbn [existsb].
  rewrite !orb_true_iff.
  change (js "s") with [115].
  rewrite (test_literal_optional (js "rtmp") 115 (js "://")) by reflexivity.
  rewrite !test_literal_at_end by reflexivity.
  rewrite !test_literal by reflexivity.
  split.
  - intros H.
    repeat match goal with
           | H : _ \/ _ |- _ => destruct H as [H|H]
           end;
      try discriminate;
      first
        [ destruct H as (pre & post & E); left; eexists _, pre, post;
          split; [|exact E]; unfold streamingNeedles;
          some_branch ltac:(reflexivity)
        | destruct H as (pre & E); right; eexists _, pre;
          split; [|exact E]; unfold streamingExtensions;
          some_branch ltac:(reflexivity) ].
  - intros [(needle & pre & post & Hin & E)|(extension & pre & Hin & E)].
    + unfold streamingNeedles in Hin. cbn [In] in Hin.
      repeat match goal with
             | H : _ \/ _ |- _ => destruct H as [H|H]
             end;
        try contradiction; subst needle;
        some_branch ltac:(exists pre, post; exact E).
    + unfold streamingExtensions in Hin. cbn [In] in Hin.
      repeat match goal with
             | H : _ \/ _ |- _ => destruct H as [H|H]
             end;
        try contradiction; subst extension;
        some_branch ltac:(exists pre; exact E).
Qed.

(** ** What the content-type test looks for *)

Lemma startsWith_prefix p rest : startsWith (p ++ rest) p = true.
Proof.
  induction p as [|a p IH]; [destruct rest; reflexivity|].
  cbn [app startsWith]. rewrite Z.eqb_refl. exact IH.
Qed.

Lemma includes_infix s p :
  includes s p = true <-> exists pre post, s = pre ++ p ++ post.
Proof.
  induction s as [|x s IH]; cbn [includes]; rewrite orb_true_iff.
  - split.
    + intros [H|H]; [|discriminate]. apply startsWith_app in H as [rest ->].
      exists [], rest. reflexivity.
    + intros (pre & post & E). left. destruct pre; [|discriminate].
      cbn [app] in E. rewrite E. apply startsWith_prefix.
  - rewrite IH. split.
    + intros [H|(pre & post & ->)].
      * apply startsWith_app in H as [rest ->]. exists [], rest. reflexivity.
      * exists (x :: pre), post. reflexivity.
    + intros (pre & post & E). destruct pre as [|y pre].
      * left. cbn [app] in E. rewrite E. apply startsWith_prefix.
      * right. cbn [app] in E. injection E as _ ->. exists pre, post. reflexivity.
Qed.

(** X5. [isStreamingMethod] answers true exactly when the request has a
    [Content-Type] whose value contains, in this very case and at any
    position, [video/], [application/x-rtmp] or
    [application/vnd.apple.mpegurl]; a request without the header is not
    streaming by this test. *)
Theorem isStreamingMethod_looks_for (request : Request) :
  isStreamingMethod request = true
  <-> exists contentType kind pre post,
        Headers_get (req_headers request) (js "content-type") = Some contentType
        /\ In kind streamingContentTypes
        /\ contentType = pre ++ kind ++ post.
Proof.
  unfold isStreamingMethod. rewrite !orb_true_iff, !includes_infix. split.
  - intros H.
    destruct (Headers_get (req_headers request) (js "content-type")) as [contentType|].
    + cbn [default] in H.
      destruct H as [[(pre & post & E)|(pre & post & E)]|(pre & post & E)];
        eexists contentType, _, pre, post; (split; [reflexivity|]);
        (split; [|exact E]); unfold streamingContentTypes;
        some_branch ltac:(reflexivity).
    + cbn [default] in H.
      destruct H as [[(pre & post & E)|(pre & post & E)]|(pre & post & E)];
        destruct pre; discriminate.
  - intros (contentType & kind & pre & post & -> & Hin & ->). cbn [default].
    unfold streamingContentTypes in Hin. cbn [In] in Hin.
    destruct Hin as [<-|[<-|[<-|[]]]];
      some_branch ltac:(exists pre, post; reflexivity).
Qed.



Lemma isRedirect_intro response location :
  In (resp_status response) [301; 302; 303; 307; 308] ->
  Headers_get (resp_headers response) (js "location") = Some location ->
  truthy location = true ->
  isRedirect response = true.
Proof.
  intros Hstatus Hlocation Ht. unfold isRedirect. rewrite Hlocation, Ht.
  rewrite andb_true_r. apply existsb_exists. exists (resp_status response).
  split; [exact Hstatus | apply Z.eqb_refl].
Qed.

(** X7. A response with a redirect status and a non-empty [Location]
    that the platform resolves against the target is returned with its
    status, status text and body, with [Location] replaced by
    [https://], the service host, a slash and the percent-encoding of the
    resolved URL, and with the CORS decoration; under every other name it
    keeps the origin's value, also on a streaming request: the streaming
    headers are not forced on a redirect. *)
Theorem redirect_is_rewritten (rt : Runtime) (response : Response) (originalUrl : URL)
    (targetUrl : list Z) (isStreaming : bool) (location : list Z) (redirectUrl : URL) :
  fromNetwork response = true ->
  In (resp_status response) [301; 302; 303; 307; 308] ->
  Headers_get (resp_headers response) (js "location") = Some location ->
  truthy location = true ->
  URL_parse rt location (Some targetUrl) = Ret redirectUrl ->
  isWellFormed (href redirectUrl) = true ->
  exists encoded returned,
    encodeURIComponent (href redirectUrl) = Ret encoded
    /\ handleResponse rt response originalUrl targetUrl isStreaming = Ret returned
    /\ resp_status returned = resp_status response
    /\ resp_statusText returned = resp_statusText response
    /\ resp_body returned = resp_body response
    /\ Headers_get (resp_headers returned) (js "Location")
       = Some (js "https://" ++ host originalUrl ++ js "/" ++ encoded)
    /\ forall name,
         toLowerCase name <> js "location" ->
         Headers_get (resp_headers returned) name
         = match corsValue isStreaming (toLowerCase name) with
           | Some value => Some value
           | None => Headers_get (resp_headers response) name
           end.
Proof.
  intros Hnet Hstatus Hlocation Ht Hparse Hwf.
  destruct (Encode_decodes (href redirectUrl) Hwf) as (encoded & _ & Henc & _).
  exists encoded.
  destruct (handleResponse_redirect rt response originalUrl targetUrl isStreaming
              (isRedirect_intro response location Hstatus Hlocation Ht))
    as (location' & Hget & ->).
  rewrite Hlocation in Hget. apply (inj Some) in Hget as <-.
  rewrite (rewriteRedirect_network rt response originalUrl targetUrl location isStreaming
             redirectUrl encoded) by assumption.
  eexists. split; [exact Henc|]. split; [reflexivity|].
  match goal with
  | |- context [addCorsHeaders ?r isStreaming] =>
    destruct (addCorsHeaders_fields r isStreaming) as (-> & -> & ->)
  end.
  split; [reflexivity|]. split; [reflexivity|]. split; [reflexivity|].
  unfold Headers_get. split.
  - rewrite addCorsHeaders_lookup. cbn [resp_headers].
    change (toLowerCase (js "Location")) with (js "location").
    assert (corsValue isStreaming (js "location") = None) as ->
      by (destruct isStreaming; reflexivity).
    apply lookup_insert_eq.
  - intros name Hname. rewrite addCorsHeaders_lookup. cbn [resp_headers].
    unfold Headers_set. rewrite lookup_insert_ne by exact (fun E => Hname (eq_sym E)).
    reflexivity.
Qed.

Lemma redirect_is_rewritten_witness :
  exists encoded returned,
    encodeURIComponent (js "https://x.test/a.m3u8") = Ret encoded
    /\ handleResponse Demo.rt Demo.playlist_moved
         (Demo.url "/https%3A%2F%2Fx.test%2Fold.m3u8") (js "https://x.test/old.m3u8") true
       = Ret returned
    /\ resp_status returned = 302
    /\ resp_statusText returned = js "Found"
    /\ resp_body returned = NullBody
    /\ Headers_get (resp_headers returned) (js "Location")
       = Some (js "https://" ++ js "proxy.test" ++ js "/" ++ encoded)
    /\ forall name,
         toLowerCase name <> js "location" ->
         Headers_get (resp_headers returned) name
         = match corsValue true (toLowerCase name) with
           | Some value => Some value
           | None => Headers_get (resp_headers Demo.playlist_moved) name
           end.
Proof.
  apply (redirect_is_rewritten Demo.rt Demo.playlist_moved
           (Demo.url "/https%3A%2F%2Fx.test%2Fold.m3u8") (js "https://x.test/old.m3u8")
           true (js "/a.m3u8") (Demo.build (js "https") (js "x.test") (js "/a.m3u8")));
    first [reflexivity | right; left; reflexivity].
Defined.

(** X8. When the fetched response has a redirect status and a non-empty
    [Location] that the platform cannot resolve against the target,
    [new URL] throws inside [handleResponse]; its promise is returned
    from the [try] block without being awaited, so the [catch] clause
    does not run: [handleRequest] rejects with that error and answers
    with no 502. *)
Theorem unresolvable_location_rejects (rt : Runtime) (html_head html_tail : list Z)
    (request : Request) (url : URL) (targetUrl : list Z) (fetched : Response)
    (location : list Z) (error : JsError) :
  URL_parse rt (req_url request) None = Ret url ->
  extractTarget (pathname url) = Ret targetUrl ->
  truthy targetUrl = true ->
  forward rt request targetUrl = Ret fetched ->
  In (resp_status fetched) [301; 302; 303; 307; 308] ->
  Headers_get (resp_headers fetched) (js "location") = Some location ->
  truthy location = true ->
  URL_parse rt location (Some targetUrl) = Throw error ->
  handleRequest rt html_head html_tail request = Throw error.
Proof.
  intros Hurl Htarget Ht Hfetch Hstatus Hlocation Hl Hparse.
  rewrite (handleRequest_target rt html_head html_tail request url targetUrl)
    by assumption.
  rewrite Hfetch.
  destruct (handleResponse_redirect rt fetched url targetUrl
              (isStreamingRequest request targetUrl)
              (isRedirect_intro fetched location Hstatus Hlocation Hl))
    as (location' & Hget & ->).
  rewrite Hlocation in Hget. apply (inj Some) in Hget as <-.
  unfold rewriteRedirect. rewrite Hparse. reflexivity.
Qed.

Lemma unresolvable_location_rejects_witness :
  handleRequest brokenRedirectRuntime [] []
    (Demo.request "GET" "/https%3A%2F%2Forigin.test%2Fa" ∅)
  = Throw Demo.invalidURL.
Proof.
  apply (unresolvable_location_rejects brokenRedirectRuntime [] []
           (Demo.request "GET" "/https%3A%2F%2Forigin.test%2Fa" ∅)
           (Demo.url "/https%3A%2F%2Forigin.test%2Fa") (js "https://origin.test/a")
           brokenRedirect (js "http://") Demo.invalidURL);
    first [reflexivity | right; left; reflexivity].
Defined.

Lemma shapeResponse_fields response isStreaming returned :
  shapeResponse response isStreaming = Ret returned ->
  resp_status returned = resp_status response
  /\ resp_statusText returned = resp_statusText response
  /\ resp_body returned = resp_body response.
Proof.
  unfold shapeResponse, handleStreamingResponse. intros H.
  assert (exists r, (resp_status r = resp_status response
                     /\ resp_statusText r = resp_statusText response
                     /\ resp_body r = resp_body response)
                    /\ returned = addCorsHeaders r isStreaming) as (r & Hr & ->).
  { destruct isStreaming; apply bind_Ret_inv in H as (r & Hnew & H);
      apply Ret_inj in H; exists r; (split; [|symmetry; exact H]);
      apply Response_new_inv in Hnew as (H1 & H2 & H3 & _); auto. }
  destruct (addCorsHeaders_fields r isStreaming) as (-> & -> & ->). exact Hr.
Qed.

Lemma rewriteRedirect_fields rt response originalUrl targetUrl location isStreaming
    returned :
  rewriteRedirect rt response originalUrl targetUrl location isStreaming = Ret returned ->
  resp_status returned = resp_status response
  /\ resp_statusText returned = resp_statusText response
  /\ resp_body returned = resp_body response.
Proof.
  unfold rewriteRedirect. intros H.
  apply bind_Ret_inv in H as (u & _ & H). apply bind_Ret_inv in H as (l & _ & H).
  apply bind_Ret_inv in H as (r & Hnew & H). apply Ret_inj in H as <-.
  apply Response_new_inv in Hnew as (H1 & H2 & H3 & _).
  match goal with
  | |- context [addCorsHeaders ?r' isStreaming] =>
    destruct (addCorsHeaders_fields r' isStreaming) as (-> & -> & ->)
  end.
  auto.
Qed.

(** X9. Whatever the fetch resolves with, the response [handleRequest]
    returns for it has the status, the status text and the body of the
    fetched response: redirects, streaming and plain responses alike are
    relayed with headers changed only. *)
Theorem relayed_response_keeps_status_and_body (rt : Runtime)
    (html_head html_tail : list Z) (request : Request) (url : URL) (targetUrl : list Z)
    (fetched returned : Response) :
  URL_parse rt (req_url request) None = Ret url ->
  extractTarget (pathname url) = Ret targetUrl ->
  truthy targetUrl = true ->
  forward rt request targetUrl = Ret fetched ->
  handleRequest rt html_head html_tail request = Ret returned ->
  resp_status returned = resp_status fetched
  /\ resp_statusText returned = resp_statusText fetched
  /\ resp_body returned = resp_body fetched.
Proof.
  intros Hurl Htarget Ht Hfetch.
  rewrite (handleRequest_target rt html_head html_tail request url targetUrl)
    by assumption.
  rewrite Hfetch. destruct (isRedirect fetched) eqn:Hred.
  - destruct (handleResponse_redirect rt fetched url targetUrl
                (isStreamingRequest request targetUrl) Hred) as (location & _ & ->).
    apply rewriteRedirect_fields.
  - rewrite handleResponse_not_redirect by assumption. apply shapeResponse_fields.
Qed.

Lemma relayed_response_keeps_status_and_body_witness :
  resp_status (addCorsHeaders Demo.page false) = 200
  /\ resp_statusText (addCorsHeaders Demo.page false) = js "OK"
  /\ resp_body (addCorsHeaders Demo.page false) = StreamBody 1.
Proof.
  apply (relayed_response_keeps_status_and_body Demo.rt [] []
           (Demo.request "GET" "/https%3A%2F%2Forigin.test%2Fpage" ∅)
           (Demo.url "/https%3A%2F%2Forigin.test%2Fpage")
           (js "https://origin.test/page") Demo.page (addCorsHeaders Demo.page false));
    reflexivity.
Defined.

Lemma Response_ext (a b : Response) :
  resp_status a = resp_status b -> resp_statusText a = resp_statusText b ->
  resp_headers a = resp_headers b -> resp_body a = resp_body b -> a = b.
Proof. destruct a, b. cbn. intros -> -> -> ->. reflexivity. Qed.

(** X10. [addCorsHeaders] applied twice gives what it gives applied
    once: its values are written over, not appended. *)
Theorem addCorsHeaders_idempotent (response : Response) (isStreaming : bool) :
  addCorsHeaders (addCorsHeaders response isStreaming) isStreaming
  = addCorsHeaders response isStreaming.
Proof.
  destruct (addCorsHeaders_fields (addCorsHeaders response isStreaming) isStreaming)
    as (H1 & H2 & H3).
  apply Response_ext; try assumption.
  apply map_eq. intros key. rewrite !addCorsHeaders_lookup.
  destruct (corsValue isStreaming key); reflexivity.
Qed.

(** ** Target extraction *)

Lemma pctOctets_plain s : ~ In 37 s -> pctOctets s = Ret (List.map Lit s).
Proof.
  induction s as [|c s IH]; intros Hs; [reflexivity|].
  rewrite pctOctets_literal by (intros ->; apply Hs; left; reflexivity).
  rewrite IH by (intros H; apply Hs; right; exact H). reflexivity.
Qed.

Lemma utf8Decode_plain s : utf8Decode (List.map Lit s) = Ret s.
Proof.
  induction s as [|c s IH]; [reflexivity|]. cbn [List.map utf8Decode]. rewrite IH.
  reflexivity.
Qed.

(** X11. A request path without a percent sign is taken as it stands:
    the target is the path after its first character. *)
Theorem unescaped_path_is_the_target (pathname : list Z) :
  ~ In 37 (slice1 pathname) ->
  extractTarget pathname = Ret (slice1 pathname).
Proof.
  intros Hplain. unfold extractTarget, decodeURIComponent.
  rewrite pctOctets_plain by assumption. apply utf8Decode_plain.
Qed.

Lemma unescaped_path_is_the_target_witness :
  extractTarget (js "/https://origin.test/page") = Ret (js "https://origin.test/page").
Proof.
  apply (unescaped_path_is_the_target (js "/https://origin.test/page")).
  vm_compute. intuition discriminate.
Defined.

Lemma utf16Encode_not_nil cp : utf16Encode cp <> [].
Proof. unfold utf16Encode. destruct (cp <=? 0xFFFF); discriminate. Qed.

Lemma pctOctets_not_nil c s items : pctOctets (c :: s) = Ret items -> items <> [].
Proof.
  cbn [pctOctets]. destruct (c =? 37).
  - destruct s as [|h [|l rest]]; try discriminate.
    destruct (hexValue h); [|discriminate]. destruct (hexValue l); [|discriminate].
    intros H. apply bind_Ret_inv in H as (R & _ & H). apply Ret_inj in H as <-.
    discriminate.
  - intros H. apply bind_Ret_inv in H as (R & _ & H). apply Ret_inj in H as <-.
    discriminate.
Qed.

Lemma utf8Decode_not_nil i items out : utf8Decode (i :: items) = Ret out -> out <> [].
Proof.
  assert (forall c (k : Completion (list Z)),
            bind k (fun R => Ret (c :: R)) = Ret out -> out <> []) as Hunit.
  { intros c k H. apply bind_Ret_inv in H as (R & _ & H). apply Ret_inj in H as <-.
    discriminate. }
  assert (forall cp (k : Completion (list Z)),
            bind k (fun R => Ret (utf16Encode cp ++ R)) = Ret out -> out <> []) as Hpoint.
  { intros cp k H. apply bind_Ret_inv in H as (R & _ & H). apply Ret_inj in H as <-.
    intros E. apply app_eq_nil in E as [E _]. exact (utf16Encode_not_nil cp E). }
  destruct i as [c|b]; cbn [utf8Decode]; [apply Hunit|].
  destruct (b <? 0x80); [apply Hunit|].
  destruct (b <? 0xC0); [discriminate|].
  destruct (b <? 0xE0).
  { destruct items as [|[|b1] items]; try discriminate.
    destruct (decode2 b b1); [apply Hpoint | discriminate]. }
  destruct (b <? 0xF0).
  { destruct items as [|[|b1] [|[|b2] items]]; try discriminate.
    destruct (decode3 b b1 b2); [apply Hpoint | discriminate]. }
  destruct (b <? 0xF8); [|discriminate].
  destruct items as [|[|b1] [|[|b2] [|[|b3] items]]]; try discriminate.
  destruct (decode4 b b1 b2 b3); [apply Hpoint | discriminate].
Qed.

(** X12. The target is empty exactly when the path has nothing after
    its first character: no sequence of escapes decodes to the empty
    string, so the configuration page answers the root path only. *)
Theorem empty_target_is_the_root_path (pathname : list Z) :
  extractTarget pathname = Ret [] <-> slice1 pathname = [].
Proof.
  unfold extractTarget, decodeURIComponent. split.
  - intros H. destruct (slice1 pathname) as [|c s]; [reflexivity|].
    apply bind_Ret_inv in H as (items & Hitems & H).
    apply pctOctets_not_nil in Hitems. destruct items as [|i items]; [congruence|].
    apply utf8Decode_not_nil in H. congruence.
  - intros ->. reflexivity.
Qed.

(** ** The alphabet of a rewritten address *)

Lemma hexDigit_unreserved n : 0 <= n < 16 -> uriUnreserved (hexDigit n) = true.
Proof.
  intros Hn. unfold hexDigit, uriUnreserved, isUpperAlpha, isLowerAlpha, isDigit.
  destruct (Z.ltb_spec n 10).
  - destruct (Z.leb_spec 48 (48 + n)); [|lia].
    destruct (Z.leb_spec (48 + n) 57); [|lia].
    cbn [andb]. rewrite orb_true_r. reflexivity.
  - destruct (Z.leb_spec 65 (55 + n)); [|lia].
    destruct (Z.leb_spec (55 + n) 90); [|lia]. reflexivity.
Qed.

Lemma pctEscape_units octets :
  Forall (fun b => 0 <= b < 256) octets ->
  Forall (fun c => isEncodedUnit c = true) (pctEscape octets).
Proof.
  induction 1 as [|b octets Hb _ IH]; [constructor|].
  unfold pctEscape in *. cbn [flat_map app]. repeat constructor; [| |exact IH].
  - unfold isEncodedUnit. rewrite hexDigit_unreserved by zdiv. reflexivity.
  - unfold isEncodedUnit. rewrite hexDigit_unreserved by zdiv. reflexivity.
Qed.

Lemma Encode_units s :
  isWellFormed s = true ->
  forall e, encodeURIComponent s = Ret e -> Forall (fun c => isEncodedUnit c = true) e.
Proof.
  unfold encodeURIComponent. revert s.
  apply (isWellFormed_ind (fun s => forall e,
    Encode uriUnreserved s = Ret e -> Forall (fun c => isEncodedUnit c = true) e)).
  - intros e H. apply Ret_inj in H as <-. constructor.
  - intros c s Hc Hlead Htrail IH e. cbn [Encode]. rewrite Htrail, Hlead.
    destruct (uriUnreserved c) eqn:Hu; intros H;
      apply bind_Ret_inv in H as (R & HR & H); apply Ret_inj in H as <-.
    + constructor; [unfold isEncodedUnit; rewrite Hu; reflexivity | exact (IH R HR)].
    + apply Forall_app. split; [|exact (IH R HR)].
      apply pctEscape_units, utf8Encode_octets. lia.
  - intros c d s Hlead Htrail IH e.
    destruct (utf16Encode_pair c d Hlead Htrail) as [_ Hrange].
    assert (uriUnreserved c = false) as Hu.
    { destruct (uriUnreserved c) eqn:Hu; [|reflexivity].
      apply uriUnreserved_ascii in Hu. unfold isLeadingSurrogate in Hlead.
      apply andb_prop in Hlead as [Hl _]. apply Z.leb_le in Hl. lia. }
    assert (isTrailingSurrogate c = false) as Hct.
    { unfold isLeadingSurrogate, isTrailingSurrogate in *.
      apply andb_prop in Hlead as [_ Hl]. apply Z.leb_le in Hl.
      destruct (Z.leb_spec 0xDC00 c); [lia | reflexivity]. }
    cbn [Encode]. rewrite Hu, Hct, Hlead, Htrail. intros H.
    apply bind_Ret_inv in H as (R & HR & H). apply Ret_inj in H as <-.
    apply Forall_app. split; [|exact (IH R HR)].
    apply pctEscape_units, utf8Encode_octets. lia.
Qed.

(** X13. In a rewritten [Location], what follows the service host and
    its slash is made of unreserved characters and percent signs only:
    no slash, question mark, hash or character beyond ASCII, so the whole
    of it is one path segment of the next request. *)
Theorem proxied_location_is_one_segment (originalUrl redirectUrl : URL) :
  isWellFormed (href redirectUrl) = true ->
  exists segment,
    proxiedLocation originalUrl redirectUrl
    = Ret (js "https://" ++ host originalUrl ++ js "/" ++ segment)
    /\ Forall (fun c => isEncodedUnit c = true) segment
    /\ Forall (fun c => 0 <= c < 128 /\ c <> 47 /\ c <> 63 /\ c <> 35) segment.
Proof.
  intros Hwf. destruct (Encode_decodes (href redirectUrl) Hwf) as (segment & _ & Henc & _).
  exists segment. unfold proxiedLocation. rewrite Henc. split; [reflexivity|].
  pose proof (Encode_units (href redirectUrl) Hwf segment Henc) as Hunits.
  split; [exact Hunits|].
  eapply Forall_impl; [exact Hunits|]. intros c Hc. unfold isEncodedUnit in Hc.
  apply orb_prop in Hc as [Hc|Hc].
  - pose proof (uriUnreserved_ascii c Hc) as [Hascii _].
    unfold uriUnreserved, isUpperAlpha, isLowerAlpha, isDigit in Hc.
    repeat split; try lia; intros ->; vm_compute in Hc; discriminate.
  - apply Z.eqb_eq in Hc as ->. lia.
Qed.

Lemma proxied_location_is_one_segment_witness :
  let target :=
    mkURL (js "https://origin.test/live/?q=a b#" ++ [0x76F4; 0x64AD])
          (js "origin.test") (js "origin.test") (js "/live/") in
  exists segment,
    proxiedLocation (Demo.url "/") target
    = Ret (js "https://" ++ js "proxy.test" ++ js "/" ++ segment)
    /\ Forall (fun c => isEncodedUnit c = true) segment
    /\ Forall (fun c => 0 <= c < 128 /\ c <> 47 /\ c <> 63 /\ c <> 35) segment.
Proof.
  intros target. apply (proxied_location_is_one_segment (Demo.url "/") target).
  reflexivity.
Defined.

(** ** The script of the configuration page *)

Lemma folds_to_prefix s w :
  (exists t u, s = t ++ u /\ foldCase t = w) <-> exists rest, foldCase s = w ++ rest.
Proof.
  split.
  - intros (t & u & -> & <-). exists (foldCase u). apply foldCase_app.
  - intros (rest & E). unfold foldCase in E.
    apply map_eq_app in E as (t & u & -> & Ht & _). exists t, u.
    split; [reflexivity | exact Ht].
Qed.

(** Literals around one optional character, at the first position. *)
Lemma matchHere_literal_optional w c w' s :
  foldCase w = w -> lowerUnit c = c -> foldCase w' = w' ->
  RegExp.matchHere
    (List.map RegExp.Chr w ++ [RegExp.OptClass [c]] ++ List.map RegExp.Chr w') s = true
  <-> (exists rest, foldCase s = (w ++ w') ++ rest)
      \/ (exists rest, foldCase s = (w ++ c :: w') ++ rest).
Proof.
  intros Hw Hc Hw'. rewrite <- !folds_to_prefix, matchHere_literal. split.
  - intros (t1 & u & -> & Ht1 & H).
    cbn [app RegExp.matchHere] in H. apply orb_prop in H as [H|H].
    + destruct u as [|x u]; [discriminate|]. apply andb_prop in H as [Hx H].
      cbn [existsb] in Hx. rewrite orb_false_r in Hx. apply sameChar_fold in Hx.
      rewrite <- (app_nil_r (List.map RegExp.Chr w')) in H.
      apply matchHere_literal in H as (t2 & v & -> & Ht2 & _).
      right. exists (t1 ++ x :: t2), v. split.
      * rewrite <- !app_assoc. reflexivity.
      * rewrite foldCase_app. cbn [foldCase List.map]. fold (foldCase t2). congruence.
    + rewrite <- (app_nil_r (List.map RegExp.Chr w')) in H.
      apply matchHere_literal in H as (t2 & v & -> & Ht2 & _).
      left. exists (t1 ++ t2), v. split.
      * rewrite <- !app_assoc. reflexivity.
      * rewrite foldCase_app. congruence.
  - intros [(t & post & -> & Ht)|(t & post & -> & Ht)].
    + unfold foldCase in Ht. apply map_eq_app in Ht as (t1 & t2 & -> & Ht1 & Ht2).
      exists t1, (t2 ++ post).
      split; [rewrite <- app_assoc; reflexivity|]. split; [rewrite Hw; exact Ht1|].
      cbn [app RegExp.matchHere]. apply orb_true_iff. right.
      rewrite <- (app_nil_r (List.map RegExp.Chr w')). apply matchHere_literal.
      exists t2, post. repeat split. rewrite Hw'. exact Ht2.
    + unfold foldCase in Ht. apply map_eq_app in Ht as (t1 & t2 & -> & Ht1 & Ht2).
      destruct t2 as [|x t2]; [discriminate|]. cbn [List.map] in Ht2.
      injection Ht2 as Hx Ht2.
      exists t1, (x :: t2 ++ post).
      split; [rewrite <- app_assoc; reflexivity|]. split; [rewrite Hw; exact Ht1|].
      cbn [app RegExp.matchHere]. apply orb_true_iff. left.
      apply andb_true_iff. split.
      * cbn [existsb]. rewrite orb_false_r. apply sameChar_fold. congruence.
      * rewrite <- (app_nil_r (List.map RegExp.Chr w')). apply matchHere_literal.
        exists t2, post. repeat split. rewrite Hw'. exact Ht2.
Qed.

Lemma normalizeUrl_cases url :
  (RegExp.matchHere Page.httpScheme url || RegExp.matchHere Page.rtmpScheme url = true
   /\ Page.normalizeUrl url = url)
  \/ Page.normalizeUrl url = js "https://" ++ url.
Proof.
  unfold Page.normalizeUrl.
  destruct (RegExp.matchHere Page.httpScheme url);
    [left; split; reflexivity|].
  destruct (RegExp.matchHere Page.rtmpScheme url);
    [left; split; reflexivity | right; reflexivity].
Qed.

Lemma hasPageScheme_matches url :
  RegExp.matchHere Page.httpScheme url || RegExp.matchHere Page.rtmpScheme url = true
  <-> hasPageScheme url.
Proof.
  unfold Page.httpScheme, Page.rtmpScheme, RegExp.lit, hasPageScheme.
  change (js "s") with [115]. rewrite orb_true_iff.
  rewrite (matchHere_literal_optional (js "http") 115 (js "://")) by reflexivity.
  rewrite (matchHere_literal_optional (js "rtmp") 115 (js "://")) by reflexivity.
  split.
  - intros [[[rest E]|[rest E]]|[[rest E]|[rest E]]].
    + exists (js "http://"), rest. split; [left; reflexivity | exact E].
    + exists (js "https://"), rest. split; [right; left; reflexivity | exact E].
    + exists (js "rtmp://"), rest. split; [right; right; left; reflexivity | exact E].
    + exists (js "rtmps://"), rest.
      split; [right; right; right; left; reflexivity | exact E].
  - intros (scheme & rest & Hin & E). unfold pageSchemes in Hin. cbn [In] in Hin.
    destruct Hin as [<-|[<-|[<-|[<-|[]]]]].
    + left. left. exists rest. exact E.
    + left. right. exists rest. exact E.
    + right. left. exists rest. exact E.
    + right. right. exists rest. exact E.
Qed.

Lemma normalizeUrl_matched url :
  RegExp.matchHere Page.httpScheme url || RegExp.matchHere Page.rtmpScheme url = true ->
  Page.normalizeUrl url = url.
Proof.
  unfold Page.normalizeUrl.
  destruct (RegExp.matchHere Page.httpScheme url); [reflexivity|].
  destruct (RegExp.matchHere Page.rtmpScheme url); [reflexivity | discriminate].
Qed.

Lemma normalizeUrl_unmatched url :
  RegExp.matchHere Page.httpScheme url || RegExp.matchHere Page.rtmpScheme url = false ->
  Page.normalizeUrl url = js "https://" ++ url.
Proof.
  unfold Page.normalizeUrl.
  destruct (RegExp.matchHere Page.httpScheme url); [discriminate|].
  destruct (RegExp.matchHere Page.rtmpScheme url); [discriminate | reflexivity].
Qed.

(** X14. [normalizeUrl] returns its argument exactly when it starts, in
    any case, with [http://], [https://], [rtmp://] or [rtmps://], and
    puts [https://] before it exactly when it does not; what it returns
    always starts with one of the four, and normalizing it again changes
    nothing. *)
Theorem normalizeUrl_has_scheme (url : list Z) :
  (hasPageScheme url -> Page.normalizeUrl url = url)
  /\ (~ hasPageScheme url -> Page.normalizeUrl url = js "https://" ++ url)
  /\ hasPageScheme (Page.normalizeUrl url)
  /\ Page.normalizeUrl (Page.normalizeUrl url) = Page.normalizeUrl url.
Proof.
  destruct (RegExp.matchHere Page.httpScheme url || RegExp.matchHere Page.rtmpScheme url)
    eqn:Hmatch.
  - pose proof (normalizeUrl_matched url Hmatch) as Hsame.
    apply hasPageScheme_matches in Hmatch. rewrite !Hsame.
    split; [reflexivity|]. split; [intros Hnot; destruct (Hnot Hmatch)|].
    split; [exact Hmatch | reflexivity].
  - pose proof (normalizeUrl_unmatched url Hmatch) as Hadded.
    assert (~ hasPageScheme url) as Hnot.
    { intros H. apply hasPageScheme_matches in H. congruence. }
    assert (hasPageScheme (js "https://" ++ url)) as Hscheme.
    { exists (js "https://"), (foldCase url).
      split; [right; left; reflexivity | apply foldCase_app]. }
    rewrite !Hadded.
    split; [intros H; destruct (Hnot H)|]. split; [reflexivity|].
    split; [exact Hscheme|].
    apply normalizeUrl_matched, hasPageScheme_matches, Hscheme.
Qed.

Lemma normalizeUrl_has_scheme_witness :
  Page.normalizeUrl (js "RTMPS://Live.test/app") = js "RTMPS://Live.test/app"
  /\ Page.normalizeUrl (js "live.test/a.m3u8") = js "https://live.test/a.m3u8".
Proof.
  split.
  - apply (proj1 (normalizeUrl_has_scheme (js "RTMPS://Live.test/app"))).
    exists (js "rtmps://"), (js "live.test/app").
    split; [right; right; right; left; reflexivity | reflexivity].
  - apply (proj1 (proj2 (normalizeUrl_has_scheme (js "live.test/a.m3u8")))).
    intros (scheme & rest & Hin & E). unfold pageSchemes in Hin. cbn [In] in Hin.
    destruct Hin as [<-|[<-|[<-|[<-|[]]]]]; vm_compute in E; discriminate E.
Defined.

(** X15. For a text that is not blank once trimmed and has no unpaired
    surrogate, [createProxy] builds [https://], the host name, a slash
    and a segment; requested from the worker, that path is decoded by
    lines 52-53 to the normalized URL the page displays. *)
Theorem createProxy_round_trip (hostname value : list Z) :
  truthy (Page.trim value) = true ->
  isWellFormed (Page.trim value) = true ->
  exists segment,
    Page.createProxy hostname value
    = Some (Ret (js "https://" ++ hostname ++ js "/" ++ segment))
    /\ extractTarget (js "/" ++ segment) = Ret (Page.normalizeUrl (Page.trim value)).
Proof.
  intros Hfilled Hwf.
  assert (isWellFormed (Page.normalizeUrl (Page.trim value)) = true) as Hnorm.
  { destruct (normalizeUrl_cases (Page.trim value)) as [[_ ->]| ->]; exact Hwf. }
  destruct (Encode_decodes _ Hnorm) as (segment & items & Henc & Hitems & Hdec).
  exists segment. unfold Page.createProxy. rewrite Hfilled, Henc. cbn [negb bind].
  split; [reflexivity|].
  unfold extractTarget, decodeURIComponent.
  change (slice1 (js "/" ++ segment)) with segment. rewrite Hitems. exact Hdec.
Qed.

Lemma createProxy_round_trip_witness :
  exists segment,
    Page.createProxy (js "proxy.test") (js "  live.example.com/stream?k=1 ")
    = Some (Ret (js "https://" ++ js "proxy.test" ++ js "/" ++ segment))
    /\ extractTarget (js "/" ++ segment)
       = Ret (Page.normalizeUrl (Page.trim (js "  live.example.com/stream?k=1 "))).
Proof.
  apply (createProxy_round_trip (js "proxy.test") (js "  live.example.com/stream?k=1 "));
    reflexivity.
Defined.
